(** * Adaptive palette: symbol composition and gloss resolution

    A shallow embedding of the editing cells of the adaptive palette client
    ([ActionRemoveIndicatorCell.ts], [ActionPostModifierCell.ts],
    [CommandClearEncoding.ts], [ActionSearchGloss.ts]) and of the batch
    palette builder ([apps/palette-generator/paletteJsonGenerator.ts]),
    followed by the properties proved about them.

    Conventions.  A JavaScript string is modelled by the [string] of its
    UTF-8 bytes: an ASCII character is one [ascii], any other character is
    the two or three bytes of its encoding, so that U+00A0 is the bytes 194
    and 160 (what a string literal of this file holds when the character is
    typed in it).  White space is recognised in full, by code point
    ([Js.whiteSpaceCodePoints]); the regular expressions of the interpreted
    fragment are read byte by byte, which is exact on ASCII text.
    JavaScript integers are modelled as [Z] (exact; the rounding of IEEE
    doubles above 2^53 is not modelled), a thrown exception as the [Throw]
    branch of [Completion].  Arrays that the source shares and mutates in
    place live in an explicit store. *)

From Stdlib Require Import ZArith String Ascii List Bool Lia.
From stdpp Require Import base tactics option list strings gmap.

Local Open Scope string_scope.
Local Open Scope list_scope.
Local Open Scope Z_scope.

(** ** The host language *)

Module Js.

(** Exceptions raised by the engine itself, by the place that raises them. *)
Inductive EngineFault :=
| ReadOfUndefined (prop : string)   (* undefined.prop *)
| NotAFunction (prop : string)      (* x.prop(...) where x.prop is undefined *)
| NotIterable.                      (* for (... of undefined) *)

(** [Error] is [new Error(message)], thrown by the program; the two others
    are thrown by the engine. *)
Inductive JsError :=
| Error (message : string)
| TypeError (fault : EngineFault)
| SyntaxError (pattern : string).

Inductive Completion (A : Type) :=
| Normal (a : A)
| Throw (e : JsError).
Arguments Normal {A} a.
Arguments Throw {A} e.

#[global] Instance Completion_ret : MRet Completion := @Normal.

#[global] Instance Completion_bind : MBind Completion :=
  fun A B (k : A -> Completion B) (c : Completion A) =>
    match c with
    | Normal a => k a
    | Throw e => Throw e
    end.

Definition returns {A} (c : Completion A) : Prop := exists a, c = Normal a.

(** What the model leaves to the engine: the wording of the messages of its
    own exceptions, and regular expressions outside the fragment interpreted
    below ([RegExp]). *)
Class Engine := {
  faultMessage : EngineFault -> string;
  syntaxMessage : string -> string;
  hostRegExp : string -> Completion (string -> bool)
}.

(** [error.message] *)
Definition message `{Engine} (e : JsError) : string :=
  match e with
  | Error m => m
  | TypeError f => faultMessage f
  | SyntaxError p => syntaxMessage p
  end.

(** *** Arrays *)

(** [a[i]] for an integer [i]: [None] is [undefined]. *)
Definition index {A} (a : list A) (i : Z) : option A :=
  if i <? 0 then None else a !! Z.to_nat i.

(** The relative index of [Array.prototype.slice]: negative counts from the
    end, and the result is clamped to [0 .. len]. *)
Definition relativeIndex (len k : Z) : Z :=
  if k <? 0 then Z.max (len + k) 0 else Z.min k len.

(** [a.slice(start, end)]; [None] for [end] is an omitted argument. *)
Definition slice {A} (a : list A) (start : Z) (end_ : option Z) : list A :=
  let len := Z.of_nat (length a) in
  let k := relativeIndex len start in
  let final := match end_ with
               | None => len
               | Some e => relativeIndex len e
               end in
  take (Z.to_nat (final - k)) (drop (Z.to_nat k) a).

(** *** Characters *)

Definition code (c : ascii) : Z := Z.of_nat (nat_of_ascii c).

Definition between (lo hi : Z) (c : ascii) : bool :=
  (lo <=? code c) && (code c <=? hi).

Definition isDigit (c : ascii) : bool := between 48 57 c.

(** *** White space *)

(** The code points of WhiteSpace and LineTerminator, which are what
    [trim], [parseInt] and [Number] skip: TAB, LF, VT, FF, CR, SP, NBSP
    (U+00A0), the other space separators of Unicode (U+1680, U+2000 to
    U+200A, U+202F, U+205F, U+3000), LS (U+2028), PS (U+2029) and ZWNBSP
    (U+FEFF). *)
Definition whiteSpaceCodePoints : list Z :=
  [9; 10; 11; 12; 13; 32; 160; 5760;
   8192; 8193; 8194; 8195; 8196; 8197; 8198; 8199; 8200; 8201; 8202;
   8232; 8233; 8239; 8287; 12288; 65279].

Definition byte (n : Z) : ascii := ascii_of_nat (Z.to_nat n).

(** The UTF-8 bytes of a code point below U+10000. *)
Definition utf8 (cp : Z) : list ascii :=
  if cp <? 128 then [byte cp]
  else if cp <? 2048 then [byte (192 + cp / 64); byte (128 + cp mod 64)]
  else [byte (224 + cp / 4096); byte (128 + (cp / 64) mod 64); byte (128 + cp mod 64)].

(** [String.fromCodePoint(...cps)] *)
Definition fromCodePoint (cps : list Z) : string :=
  string_of_list_ascii (concat (utf8 <$> cps)).

(** The bytes are those of one white space character. *)
Definition isWhiteSpace (bytes : list ascii) : bool :=
  bool_decide (bytes ∈ utf8 <$> whiteSpaceCodePoints).

(** The number of bytes of the white space character that the text starts
    with; 0 if it starts with none. *)
Definition leadingWhiteSpace (s : list ascii) : nat :=
  match s with
  | c1 :: r1 =>
      if isWhiteSpace [c1] then 1%nat
      else match r1 with
           | c2 :: r2 =>
               if isWhiteSpace [c1; c2] then 2%nat
               else match r2 with
                    | c3 :: _ => if isWhiteSpace [c1; c2; c3] then 3%nat else 0%nat
                    | [] => 0%nat
                    end
           | [] => 0%nat
           end
  | [] => 0%nat
  end.

(** [String.prototype.trimStart]: the text from its first character that is
    not white space. *)
Fixpoint trimStart (s : list ascii) : list ascii :=
  match s with
  | [] => []
  | c1 :: r1 =>
      if isWhiteSpace [c1] then trimStart r1
      else match r1 with
           | [] => s
           | c2 :: r2 =>
               if isWhiteSpace [c1; c2] then trimStart r2
               else match r2 with
                    | [] => s
                    | c3 :: r3 =>
                        if isWhiteSpace [c1; c2; c3] then trimStart r3 else s
                    end
           end
  end.

(** [String.prototype.trimEnd]: the text up to its last character that is
    not white space.  A byte is kept unless nothing but white space follows
    from it on. *)
Fixpoint trimEnd (s : list ascii) : list ascii :=
  match s with
  | [] => []
  | c :: r =>
      match trimStart s with
      | [] => []
      | _ :: _ => c :: trimEnd r
      end
  end.

(** [String.prototype.trim] *)
Definition trim (s : string) : string :=
  string_of_list_ascii (trimEnd (trimStart (list_ascii_of_string s))).

Definition isLineTerminator (c : ascii) : bool :=
  (code c =? 10) || (code c =? 13).

(** The class [\w]: letters, digits and the underscore. *)
Definition isWordChar (c : ascii) : bool :=
  between 97 122 c || between 65 90 c || isDigit c || (code c =? 95).

(** *** parseInt *)

(** A Number that came out of [parseInt]. *)
Inductive JsInt :=
| NaN
| Int (z : Z).

Definition isNaN (n : JsInt) : bool :=
  match n with
  | NaN => true
  | Int _ => false
  end.

Definition digitValue (c : ascii) : option Z :=
  if isDigit c then Some (code c - 48)
  else if between 97 122 c then Some (code c - 87)
  else if between 65 90 c then Some (code c - 55)
  else None.

Definition radixDigit (R : Z) (c : ascii) : option Z :=
  match digitValue c with
  | Some d => if d <? R then Some d else None
  | None => None
  end.

(** The longest prefix of radix-[R] digits, as a number; [acc] is [None]
    until a digit has been read. *)
Fixpoint parseDigits (R : Z) (acc : option Z) (s : list ascii) : option Z :=
  match s with
  | [] => acc
  | c :: r =>
      match radixDigit R c with
      | Some d => parseDigits R (Some (R * default 0 acc + d)) r
      | None => acc
      end
  end.

(** [parseInt(s)] with no radix argument: leading white space, a sign, an
    optional [0x] prefix, then digits up to the first character that is not
    one. *)
Definition parseInt (s : string) : JsInt :=
  let S0 := trimStart (list_ascii_of_string s) in
  let '(sign, S1) := match S0 with
                     | "-"%char :: r => (-1, r)
                     | "+"%char :: r => (1, r)
                     | _ => (1, S0)
                     end in
  let '(R, S2) := match S1 with
                  | "0"%char :: "x"%char :: r => (16, r)
                  | "0"%char :: "X"%char :: r => (16, r)
                  | _ => (10, S1)
                  end in
  match parseDigits R None S2 with
  | None => NaN
  | Some v => Int (sign * v)
  end.

(** *** Regular expressions: the fragment the model interprets *)

Inductive Node :=
| NChar (c : ascii)   (* a pattern character, matching itself *)
| NAny                (* [.] *)
| NWordB.             (* [\b] *)

(** SyntaxCharacter: [^ $ \ . * + ? ( ) [ ] { } |] *)
Definition isSyntaxCharacter (c : ascii) : bool :=
  bool_decide (code c ∈ [94; 36; 92; 46; 42; 43; 63; 40; 41; 91; 93; 123; 125; 124]).

(** A pattern made of [\b], [.] and pattern characters; any other use of a
    syntax character is outside the fragment. *)
Fixpoint parsePattern (p : list ascii) : option (list Node) :=
  match p with
  | [] => Some []
  | "\"%char :: "b"%char :: r => cons NWordB <$> parsePattern r
  | "."%char :: r => cons NAny <$> parsePattern r
  | c :: r => if isSyntaxCharacter c then None else cons (NChar c) <$> parsePattern r
  end.

(** [\b] between [prev] (the character before the position, if any) and
    the rest of the input. *)
Definition atBoundary (prev : option ascii) (rest : list ascii) : bool :=
  xorb (from_option isWordChar false prev)
       (from_option isWordChar false (head rest)).

(** The nodes match a prefix of [rest]. *)
Fixpoint matchNodes (ns : list Node) (prev : option ascii) (rest : list ascii) : bool :=
  match ns with
  | [] => true
  | NWordB :: ns' => atBoundary prev rest && matchNodes ns' prev rest
  | NChar c :: ns' =>
      match rest with
      | d :: rest' => Ascii.eqb c d && matchNodes ns' (Some d) rest'
      | [] => false
      end
  | NAny :: ns' =>
      match rest with
      | d :: rest' => negb (isLineTerminator d) && matchNodes ns' (Some d) rest'
      | [] => false
      end
  end.

(** [test] without the global flag: a match starting at some position. *)
Fixpoint searchFrom (ns : list Node) (prev : option ascii) (rest : list ascii) : bool :=
  matchNodes ns prev rest ||
  match rest with
  | d :: rest' => searchFrom ns (Some d) rest'
  | [] => false
  end.

Definition testNodes (ns : list Node) (input : string) : bool :=
  searchFrom ns None (list_ascii_of_string input).

(** [new RegExp(source)], identified with its [test] method. *)
Definition RegExp `{Engine} (source : string) : Completion (string -> bool) :=
  match parsePattern (list_ascii_of_string source) with
  | Some ns => Normal (testNodes ns)
  | None => hostRegExp source
  end.

(** A label no character of which is a syntax character: as a pattern it
    stands for itself. *)
Definition plain (label : string) : Prop :=
  Forall (fun c => isSyntaxCharacter c = false) (list_ascii_of_string label).

(** Following the spec's words ("contains label as a whole word", a
    "word-boundary match", case-sensitive): the text is some [pre], then the
    word, then some [post], with a word boundary on each side of the word. *)
Definition occursAsWholeWord (word text : string) : Prop :=
  exists pre post : list ascii,
    list_ascii_of_string text = pre ++ list_ascii_of_string word ++ post
    /\ atBoundary (last pre) (list_ascii_of_string word ++ post) = true
    /\ atBoundary (last (pre ++ list_ascii_of_string word)) post = true.

(** *** Number(string) *)

Fixpoint dropDigits (s : list ascii) : list ascii :=
  match s with
  | c :: r => if isDigit c then dropDigits r else s
  | [] => []
  end.

Fixpoint takeDigits (s : list ascii) : list ascii :=
  match s with
  | c :: r => if isDigit c then c :: takeDigits r else []
  | [] => []
  end.

Definition nonEmpty {A} (l : list A) : bool :=
  match l with
  | [] => false
  | _ :: _ => true
  end.

Definition oneOrMore (p : ascii -> bool) (s : list ascii) : bool :=
  nonEmpty s && forallb p s.

Definition dropSign (s : list ascii) : list ascii :=
  match s with
  | "+"%char :: r => r
  | "-"%char :: r => r
  | _ => s
  end.

(** ExponentPart, or nothing *)
Definition isOptExponent (s : list ascii) : bool :=
  match s with
  | [] => true
  | "e"%char :: r => oneOrMore isDigit (dropSign r)
  | "E"%char :: r => oneOrMore isDigit (dropSign r)
  | _ => false
  end.

(** StrUnsignedDecimalLiteral *)
Definition isStrUnsignedDecimalLiteral (s : list ascii) : bool :=
  if bool_decide (s = list_ascii_of_string "Infinity") then true
  else
    let d1 := takeDigits s in
    match dropDigits s with
    | "."%char :: r2 =>
        (nonEmpty d1 || nonEmpty (takeDigits r2)) && isOptExponent (dropDigits r2)
    | r1 => nonEmpty d1 && isOptExponent r1
    end.

(** NonDecimalIntegerLiteral: [0x], [0o] and [0b] literals, unsigned *)
Definition isNonDecimalIntegerLiteral (s : list ascii) : bool :=
  match s with
  | "0"%char :: p :: ds =>
      if bool_decide (p = "x"%char \/ p = "X"%char) then
        oneOrMore (fun c => bool_decide (is_Some (radixDigit 16 c))) ds
      else if bool_decide (p = "o"%char \/ p = "O"%char) then
        oneOrMore (between 48 55) ds
      else if bool_decide (p = "b"%char \/ p = "B"%char) then
        oneOrMore (between 48 49) ds
      else false
  | _ => false
  end.

(** StrNumericLiteral, on a string already trimmed *)
Definition isStrNumericLiteral (s : string) : bool :=
  let cs := list_ascii_of_string s in
  isNonDecimalIntegerLiteral cs || isStrUnsignedDecimalLiteral (dropSign cs).

(** The Number values that are not NaN, and the value a numeric literal
    denotes (an IEEE double: left to the engine). *)
Class Numbers := {
  number : Type;
  literalValue : string -> number;
  zero : number
}.

Inductive JsNumber `{Numbers} :=
| NumNaN
| Num (v : number).

(** [Number(s)] *)
Definition Number `{Numbers} (s : string) : JsNumber :=
  let t := trim s in
  if bool_decide (t = "") then Num zero
  else if isStrNumericLiteral t then Num (literalValue t)
  else NumNaN.

End Js.

(** ** The editing cells of the client *)

Module Client.
Import Js.

(** [BciAvIdType]: a single identifier, or an array of identifiers and
    marker strings such as ["/"] and [";"]. *)
Inductive Token :=
| TNum (n : Z)
| TStr (s : string).

Inductive BciAvIdType :=
| Single (n : Z)
| Composite (tokens : list Token).

(** [typeof b === "number" ? [b] : b] *)
Definition asArray (b : BciAvIdType) : list Token :=
  match b with
  | Single n => [TNum n]
  | Composite tokens => tokens
  end.

Record ModifierInfoType := {
  modifierId : list Token;
  modifierGloss : string;
  isPrepended : bool
}.

(** A [modifierInfo] array is shared between the symbol that is edited and
    the one that replaces it, and is pushed onto in place: a symbol holds a
    reference to it, a [nat]. *)
Record EncodingType := {
  id : string;
  label : string;
  bciAvId : BciAvIdType;
  modifierInfo : nat
}.

Record ContentSignalDataType := {
  payloads : list EncodingType;
  caretPosition : Z
}.

(** The state the cells act on: the value of the [changeEncodingContents]
    signal, the store of [modifierInfo] arrays, and what [speak] was asked
    to say, oldest first.  A reference with no array in the store is a
    symbol whose [modifierInfo] is undefined. *)
Record Page := {
  changeEncodingContents : ContentSignalDataType;
  arrays : gmap nat (list ModifierInfoType);
  spoken : list string
}.

(** The part of a cell's [props] the handlers read. *)
Record PropsType := {
  props_id : string;
  options_label : string;
  options_bciAvId : BciAvIdType
}.

(** [findIndicators] of SvgUtils.ts, which is not among the sources: the cell
    is verified for any such function. *)
Class SvgUtils := {
  findIndicators : BciAvIdType -> list Z
}.

Fixpoint scanIndicators (isIndicator : Token -> bool) (i : Z) (tokens : list Token) : list Z :=
  match tokens with
  | [] => []
  | t :: r =>
      (if isIndicator t then [i] else []) ++ scanIndicators isIndicator (i + 1) r
  end.

(** Modelled from the spec: [findIndicators] (SvgUtils.ts is missing), as
    "scans tokens left to right and returns every index whose element matches
    the fixed indicator marker set"; the marker set is the parameter
    [isIndicator]. *)
Definition findIndicatorPositions (isIndicator : Token -> bool) (b : BciAvIdType) : list Z :=
  scanIndicators isIndicator 0 (asArray b).

Definition specSvgUtils (isIndicator : Token -> bool) : SvgUtils :=
  {| findIndicators := findIndicatorPositions isIndicator |}.

Module ActionRemoveIndicatorCell.

(** The index of the first indicator of the symbol at the caret, or -1.  With
    no payload nothing is read; otherwise [payloads[caretPosition].bciAvId]
    throws when the caret is on no payload. *)
Definition caretSymbolIndicatorPosition `{SvgUtils}
    (symbols : ContentSignalDataType) : Completion Z :=
  indicatorPositions ←
    (if bool_decide (length (payloads symbols) ≠ 0%nat) then
       match index (payloads symbols) (caretPosition symbols) with
       | None => Throw (TypeError (ReadOfUndefined "bciAvId"))
       | Some caretSymbol => Normal (findIndicators (bciAvId caretSymbol))
       end
     else Normal []);
  Normal (match indicatorPositions with
          | [] => -1
          | first :: _ => first
          end).

(** The [disabled] attribute computed when the cell is rendered. *)
Definition disabled `{SvgUtils} (page : Page) : Completion bool :=
  indicatorPosition ← caretSymbolIndicatorPosition (changeEncodingContents page);
  Normal (bool_decide (indicatorPosition = -1)).

Definition cellClicked `{SvgUtils} (props : PropsType) (page : Page) : Completion Page :=
  let caretPosition := caretPosition (changeEncodingContents page) in
  let payloads := payloads (changeEncodingContents page) in
  indicatorIndex ← caretSymbolIndicatorPosition (changeEncodingContents page);
  match index payloads caretPosition with
  | None => Throw (TypeError (ReadOfUndefined "bciAvId"))
  | Some symbolToEdit =>
      match bciAvId symbolToEdit with
      | Single _ => Throw (TypeError (NotAFunction "slice"))
      | Composite newBciAvId =>
          let newBciAvId :=
            slice newBciAvId 0 (Some (indicatorIndex - 1)) ++
            slice newBciAvId (indicatorIndex + 1) None in
          let payloads :=
            <[Z.to_nat caretPosition :=
                {| id := id symbolToEdit +:+ props_id props;
                   label := label symbolToEdit;
                   bciAvId := Composite newBciAvId;
                   modifierInfo := modifierInfo symbolToEdit |}]> payloads in
          Normal {| changeEncodingContents :=
                      {| payloads := payloads; caretPosition := caretPosition |};
                    arrays := arrays page;
                    spoken := spoken page ++ [label symbolToEdit] |}
      end
  end.

(** A click on the rendered button: a disabled button dispatches no click
    event. *)
Definition click `{SvgUtils} (props : PropsType) (page : Page) : Completion Page :=
  isDisabled ← disabled page;
  if (isDisabled : bool) then Normal page else cellClicked props page.

End ActionRemoveIndicatorCell.

Module ActionPostModifierCell.

Definition disabled (page : Page) : bool :=
  bool_decide (length (payloads (changeEncodingContents page)) = 0%nat).

Definition cellClicked (props : PropsType) (page : Page) : Completion Page :=
  let label_ := options_label props in
  let modifierBciAvId := asArray (options_bciAvId props) in
  let caretPosition := caretPosition (changeEncodingContents page) in
  let payloads := payloads (changeEncodingContents page) in
  match index payloads caretPosition with
  | None => Throw (TypeError (ReadOfUndefined "bciAvId"))
  | Some symbolToEdit =>
      let newBciAvId :=
        asArray (bciAvId symbolToEdit) ++ [TStr "/"] ++ modifierBciAvId in
      match arrays page !! modifierInfo symbolToEdit with
      | None => Throw (TypeError (ReadOfUndefined "push"))
      | Some pushedOnto =>
          let arrays :=
            <[modifierInfo symbolToEdit :=
                pushedOnto ++ [{| modifierId := modifierBciAvId;
                                  modifierGloss := label_;
                                  isPrepended := false |}]]> (arrays page) in
          let payloads :=
            <[Z.to_nat caretPosition :=
                {| id := id symbolToEdit +:+ props_id props;
                   label := label_ +:+ " " +:+ label symbolToEdit;
                   bciAvId := Composite newBciAvId;
                   modifierInfo := modifierInfo symbolToEdit |}]> payloads in
          Normal {| changeEncodingContents :=
                      {| payloads := payloads; caretPosition := caretPosition |};
                    arrays := arrays;
                    spoken := spoken page ++ [label_ +:+ " " +:+ label symbolToEdit] |}
      end
  end.

Definition click (props : PropsType) (page : Page) : Completion Page :=
  if disabled page then Normal page else cellClicked props page.

End ActionPostModifierCell.

Module CommandClearEncoding.

Definition cellClicked (props : PropsType) (page : Page) : Page :=
  {| changeEncodingContents := {| payloads := []; caretPosition := -1 |};
     arrays := arrays page;
     spoken := spoken page ++ [options_label props] |}.

End CommandClearEncoding.

(** The symbol in a slot with its [modifierInfo] read through the store:
    what a reader of [payloads[j]] observes. *)
Definition observed (page : Page) (j : nat)
    : option (EncodingType * option (list ModifierInfoType)) :=
  (fun s => (s, arrays page !! modifierInfo s)) <$>
    payloads (changeEncodingContents page) !! j.

(** No two slots of the document share a [modifierInfo] array. *)
Definition distinctArrays (page : Page) : Prop :=
  forall (i j : nat) si sj,
    i ≠ j ->
    payloads (changeEncodingContents page) !! i = Some si ->
    payloads (changeEncodingContents page) !! j = Some sj ->
    modifierInfo si ≠ modifierInfo sj.

End Client.

(** ** The batch palette builder *)

Module PaletteGenerator.
Import Js.
Import Client (Token, TNum, TStr).

Definition BLANK_CELL_LABEL : string := "BLANK".
Definition palette_name : string := "No name Palette".
Definition type : string := "ActionBmwCodeCell".

(** The [id] of an entry of the gloss file, as JSON gives it: a number (an
    integer here) or a string. *)
Inductive GlossId :=
| IdNumber (n : Z)
| IdString (s : string).

Record GlossEntry := {
  id : GlossId;
  description : string
}.

(** [parseInt(gloss.id)]: a number is first written out in decimal. *)
Definition parseIntId (i : GlossId) : JsInt :=
  match i with
  | IdNumber n => Int n
  | IdString s => parseInt s
  end.

(** [entry.id === bciAvId] for a string [bciAvId]: no conversion is made, so
    a number is never equal to it. *)
Definition strictEqualsString (i : GlossId) (s : string) : bool :=
  match i with
  | IdNumber _ => false
  | IdString t => bool_decide (t = s)
  end.

(** [specialEncodings] is the object literal [{}]: it has no property of its
    own, and [in] also finds what it inherits from [Object.prototype]. *)
Definition objectPrototypeKeys : list string :=
  [ "constructor"; "__defineGetter__"; "__defineSetter__"; "hasOwnProperty";
    "__lookupGetter__"; "__lookupSetter__"; "isPrototypeOf";
    "propertyIsEnumerable"; "toString"; "valueOf"; "__proto__";
    "toLocaleString" ].

Definition in_specialEncodings (label : string) : bool :=
  bool_decide (label ∈ objectPrototypeKeys).

Record Match := {
  match_bciAvId : JsInt;
  match_label : string
}.

(** What [findBciAvId] returns: the array of matches, or
    [specialEncodings[label]], which can only be a member of
    [Object.prototype] (a function or an object, with no element 0). *)
Inductive Found :=
| Matches (matches : list Match)
| Inherited.

(** The loop of [findBciAvId] from the entries still to visit; a regular
    expression is built anew for each entry. *)
Fixpoint scanGlosses `{Engine} (label : string) (blissGlosses : list GlossEntry)
    (matches : list Match) : Completion (list Match) :=
  match blissGlosses with
  | [] => Normal matches
  | gloss :: rest =>
      wordMatch ← RegExp ("\b" +:+ label +:+ "\b");
      if bool_decide (label = description gloss) || wordMatch (description gloss)
      then scanGlosses label rest
             (matches ++ [{| match_bciAvId := parseIntId (id gloss);
                             match_label := description gloss |}])
      else scanGlosses label rest matches
  end.

(** [None] for [blissGlosses] is [undefined]: the gloss file was not
    fetched. *)
Definition findBciAvId `{Engine} (label : string)
    (blissGlosses : option (list GlossEntry)) : Completion Found :=
  if in_specialEncodings label then Normal Inherited
  else
    match blissGlosses with
    | None => Throw (TypeError NotIterable)
    | Some glosses =>
        matches ← scanGlosses label glosses [];
        if bool_decide (length matches = 0%nat)
        then Throw (Error ("BciAvId not found for label: " +:+ label))
        else Normal (Matches matches)
    end.

Definition findByBciAvId (bciAvId : string)
    (blissGlosses : option (list GlossEntry)) : Completion GlossEntry :=
  match blissGlosses with
  | None => Throw (TypeError (ReadOfUndefined "find"))
  | Some glosses =>
      match List.find (fun entry => strictEqualsString (id entry) bciAvId) glosses with
      | None => Throw (Error ("BciAvId not found for BCI AV ID: " +:+ bciAvId))
      | Some theEntry => Normal theEntry
      end
  end.

(** The [bciAvId] of a palette cell. *)
Inductive CellBciAvId :=
| Undefined
| Number_ (n : JsInt)
| Tokens (tokens : list Token).

Record Options := {
  label : string;
  bciAvId : CellBciAvId;
  rowStart : Z;
  rowSpan : Z;
  columnStart : Z;
  columnSpan : Z
}.

Record Cell := {
  cell_type : string;
  options : Options
}.

Definition set_label (l : string) (c : Cell) : Cell :=
  {| cell_type := cell_type c;
     options := {| label := l; bciAvId := bciAvId (options c);
                   rowStart := rowStart (options c); rowSpan := rowSpan (options c);
                   columnStart := columnStart (options c);
                   columnSpan := columnSpan (options c) |} |}.

Definition set_bciAvId (b : CellBciAvId) (c : Cell) : Cell :=
  {| cell_type := cell_type c;
     options := {| label := label (options c); bciAvId := b;
                   rowStart := rowStart (options c); rowSpan := rowSpan (options c);
                   columnStart := columnStart (options c);
                   columnSpan := columnSpan (options c) |} |}.

(** The encoding of "not found". *)
Definition notFoundBciAvId : list Token :=
  [TNum 15733; TStr "/"; TNum 14133; TStr ";"; TNum 9004; TStr "/"; TNum 25570].

(** [obj[key] = value] on an object whose own properties are listed in
    creation order. *)
Fixpoint assign {V} (obj : list (string * V)) (key : string) (value : V) : list (string * V) :=
  match obj with
  | [] => [(key, value)]
  | (k, v) :: rest =>
      if bool_decide (k = key) then (k, value) :: rest
      else (k, v) :: assign rest key value
  end.

Fixpoint property {V} (obj : list (string * V)) (key : string) : option V :=
  match obj with
  | [] => None
  | (k, v) :: rest => if bool_decide (k = key) then Some v else property rest key
  end.

(** The variables of the module: the gloss file once fetched, the [errors]
    array, which every call shares, and how many identifiers [uuidv4] has
    handed out. *)
Record Globals := {
  bliss_gloss : option (list GlossEntry);
  errors : list string;
  uuidCalls : nat
}.

(** [uuidv4] of the uuid package: the identifier of its n-th call. *)
Class Uuid := {
  uuidv4 : nat -> string
}.

(** The locals of one call of [processPaletteLabels] together with the
    module's variables. *)
Record Build := {
  cells : list (string * Cell);
  matchByLabel : list (string * list Match);
  globals : Globals
}.

(** The [try] block for one label.  It assigns to the cell and to
    [matchByLabel] as it goes, so it yields them together with how it
    ended. *)
Definition tryBlock `{Engine} (label_ : string) (bliss : option (list GlossEntry))
    (cell : Cell) (matchByLabel_ : list (string * list Match))
    : Cell * list (string * list Match) * Completion unit :=
  let cell := set_bciAvId (Number_ (parseInt label_)) cell in
  if negb (isNaN (parseInt label_)) then
    match findByBciAvId label_ bliss with
    | Throw e => (cell, matchByLabel_, Throw e)
    | Normal glossEntry =>
        (set_label (description glossEntry) cell, matchByLabel_, Normal ())
    end
  else
    match findBciAvId label_ bliss with
    | Throw e => (cell, matchByLabel_, Throw e)
    | Normal Inherited =>
        (cell, matchByLabel_, Throw (TypeError (ReadOfUndefined "bciAvId")))
    | Normal (Matches matches) =>
        match matches with
        | [] => (cell, matchByLabel_, Throw (TypeError (ReadOfUndefined "bciAvId")))
        | first :: _ =>
            (set_bciAvId (Number_ (match_bciAvId first)) cell,
             matchByLabel_ ++ [(label_, matches)], Normal ())
        end
    end.

(** The [catch] block. *)
Definition catchBlock `{Engine} (error : JsError) (cell : Cell) (errors_ : list string)
    : Cell * list string :=
  (set_bciAvId (Tokens notFoundBciAvId)
     (set_label (label (options cell) +:+ " NOT FOUND") cell),
   errors_ ++ [message error]).

(** The callback of the inner [forEach]. *)
Definition forLabel `{Engine} `{Uuid} (start_row start_column : Z)
    (rowIndex colIndex : nat) (label_ : string) (b : Build) : Completion Build :=
  let current_row := start_row + Z.of_nat rowIndex in
  let current_column := start_column + Z.of_nat colIndex in
  if bool_decide (label_ = BLANK_CELL_LABEL) then Normal b
  else
    let cell :=
      {| cell_type := type;
         options := {| label := label_; bciAvId := Undefined;
                       rowStart := current_row; rowSpan := 1;
                       columnStart := current_column; columnSpan := 1 |} |} in
    let '(cell, matchByLabel_, ended) :=
      tryBlock label_ (bliss_gloss (globals b)) cell (matchByLabel b) in
    let '(cell, errors_) :=
      match ended with
      | Normal _ => (cell, errors (globals b))
      | Throw error => catchBlock error cell (errors (globals b))
      end in
    Normal {| cells := assign (cells b)
                         (label_ +:+ "-" +:+ uuidv4 (uuidCalls (globals b))) cell;
              matchByLabel := matchByLabel_;
              globals := {| bliss_gloss := bliss_gloss (globals b);
                            errors := errors_;
                            uuidCalls := S (uuidCalls (globals b)) |} |}.

(** [row.forEach((label, colIndex) => ...)], from column [colIndex] on. *)
Fixpoint forRow `{Engine} `{Uuid} (start_row start_column : Z)
    (rowIndex colIndex : nat) (row : list string) (b : Build) : Completion Build :=
  match row with
  | [] => Normal b
  | label_ :: rest =>
      b ← forLabel start_row start_column rowIndex colIndex label_ b;
      forRow start_row start_column rowIndex (S colIndex) rest b
  end.

(** [palette_labels.forEach((row, rowIndex) => ...)], from row [rowIndex] on. *)
Fixpoint forRows `{Engine} `{Uuid} (start_row start_column : Z)
    (rowIndex : nat) (palette_labels : list (list string)) (b : Build) : Completion Build :=
  match palette_labels with
  | [] => Normal b
  | row :: rest =>
      b ← forRow start_row start_column rowIndex 0 row b;
      forRows start_row start_column (S rowIndex) rest b
  end.

(** The object [processPaletteLabels] returns.  Its [errors] property is the
    module's array itself, not a copy: it is read through the module's
    variables ([returnedErrors]). *)
Record Palette := {
  name : string;
  palette_cells : list (string * Cell)
}.

Record Returned := {
  paletteJson : Palette;
  matches : list (string * list Match)
}.

Definition returnedErrors (r : Returned) (g : Globals) : list string := errors g.

Definition processPaletteLabels `{Engine} `{Uuid} (palette_labels : list (list string))
    (start_row start_column : Z) (g : Globals) : Completion (Returned * Globals) :=
  let b := {| cells := []; matchByLabel := [];
              globals := {| bliss_gloss := bliss_gloss g; errors := [];
                            uuidCalls := uuidCalls g |} |} in
  b ← forRows start_row start_column 0 palette_labels b;
  Normal ({| paletteJson := {| name := palette_name; palette_cells := cells b |};
             matches := matchByLabel b |}, globals b).

(** *** Vocabulary for the properties *)

(** The cell the callback creates before its [try] block. *)
Definition newCell (label_ : string) (row column : Z) : Cell :=
  {| cell_type := type;
     options := {| label := label_; bciAvId := Undefined;
                   rowStart := row; rowSpan := 1;
                   columnStart := column; columnSpan := 1 |} |}.

(** How the [try] block ends for a label. *)
Definition attempt `{Engine} (label_ : string) (bliss : option (list GlossEntry))
    : Completion unit :=
  (tryBlock label_ bliss (newCell label_ 0 0) []).2.

(** The error a cell fails with, if it does; a blank cell is skipped. *)
Definition failure `{Engine} (bliss : option (list GlossEntry)) (label_ : string)
    : option JsError :=
  if bool_decide (label_ = BLANK_CELL_LABEL) then None
  else match attempt label_ bliss with
       | Throw e => Some e
       | Normal _ => None
       end.

(** The messages of the failed cells of a layout, row by row. *)
Definition failureMessages `{Engine} (bliss : option (list GlossEntry))
    (palette_labels : list (list string)) : list string :=
  message <$> omap (failure bliss) (concat palette_labels).

(** The cells of a layout that are not blank. *)
Definition labelled (palette_labels : list (list string)) : list string :=
  filter (fun l => l ≠ BLANK_CELL_LABEL) (concat palette_labels).

(** The cells of a layout that fail. *)
Definition failedCells `{Engine} (bliss : option (list GlossEntry))
    (palette_labels : list (list string)) : list string :=
  filter (fun l => is_Some (failure bliss l)) (concat palette_labels).

(** The cell emitted for a label that could not be resolved. *)
Definition notFoundCell (label_ : string) (row column : Z) : Cell :=
  {| cell_type := type;
     options := {| label := label_ +:+ " NOT FOUND";
                   bciAvId := Tokens notFoundBciAvId;
                   rowStart := row; rowSpan := 1;
                   columnStart := column; columnSpan := 1 |} |}.

(** The cells of a row from column [j] on, and of a layout from row [i] on,
    each with its indices, in the order the two loops visit them. *)
Fixpoint rowCells (i j : nat) (row : list string) : list (nat * nat * string) :=
  match row with
  | [] => []
  | l :: rest => (i, j, l) :: rowCells i (S j) rest
  end.

Fixpoint layoutCells (i : nat) (palette_labels : list (list string))
    : list (nat * nat * string) :=
  match palette_labels with
  | [] => []
  | row :: rest => rowCells i 0 row ++ layoutCells (S i) rest
  end.

(** The callback run over a list of cells. *)
Fixpoint forCells `{Engine} `{Uuid} (start_row start_column : Z)
    (cs : list (nat * nat * string)) (b : Build) : Completion Build :=
  match cs with
  | [] => Normal b
  | (i, j, l) :: rest =>
      b ← forLabel start_row start_column i j l b;
      forCells start_row start_column rest b
  end.

(** The keys assigned for a list of cells when [n] identifiers have been
    drawn before: one for each cell that is not blank. *)
Fixpoint keysFrom `{Uuid} (n : nat) (cs : list (nat * nat * string)) : list string :=
  match cs with
  | [] => []
  | (_, _, l) :: rest =>
      if bool_decide (l = BLANK_CELL_LABEL) then keysFrom n rest
      else (l +:+ "-" +:+ uuidv4 n) :: keysFrom (S n) rest
  end.

(** The keys a call assigns in the palette. *)
Definition assignedKeys `{Uuid} (g : Globals) (palette_labels : list (list string))
    : list string :=
  keysFrom (uuidCalls g) (layoutCells 0 palette_labels).

(** The match pushed for a gloss entry. *)
Definition matchOf (gloss : GlossEntry) : Match :=
  {| match_bciAvId := parseIntId (id gloss); match_label := description gloss |}.

End PaletteGenerator.

(** ** The gloss search form *)

Module ActionSearchGloss.
Import Js.

(** [findBciAvId] and [findCompositionsUsingId] of BciAvUtils.ts, which is
    not among the sources: the form is verified for any two such
    functions. *)
Class BciAvUtils `{Numbers} := {
  MatchType : Type;
  findBciAvId : string -> Completion (list MatchType);
  findCompositionsUsingId : number -> Completion (list MatchType)
}.

(** The props [searchGloss] renders [GlossSearchPalette] with. *)
Record Rendered `{BciAvUtils} := {
  matches : list MatchType;
  noSearchTerm : bool;
  searchTerm : string
}.

(** The submit handler, on the text of the search field. *)
Definition searchGloss `{BciAvUtils} (field : string) : Completion Rendered :=
  let searchText := trim field in
  if bool_decide (String.length searchText = 0%nat) then
    Normal {| matches := []; noSearchTerm := true; searchTerm := searchText |}
  else
    matches_ ←
      match Number searchText with
      | NumNaN => findBciAvId searchText
      | Num numberId => findCompositionsUsingId numberId
      end;
    Normal {| matches := matches_; noSearchTerm := false; searchTerm := searchText |}.

End ActionSearchGloss.

(** ** Concrete collaborators, for closed examples *)

Module Sample.
Import Js.

(** An engine that refuses every pattern outside the interpreted fragment.
    The examples below only build patterns inside the fragment, where this
    choice plays no part. *)
Definition engine : Engine :=
  {| faultMessage := fun f =>
       match f with
       | ReadOfUndefined p => "Cannot read properties of undefined (reading '" +:+ p +:+ "')"
       | NotAFunction p => p +:+ " is not a function"
       | NotIterable => "undefined is not iterable"
       end;
     syntaxMessage := fun p => "Invalid regular expression: /" +:+ p +:+ "/";
     hostRegExp := fun p => Throw (SyntaxError p) |}.

(** Identifiers told apart by the number of the call only. *)
Definition uuid : PaletteGenerator.Uuid :=
  {| PaletteGenerator.uuidv4 := fun n => String.concat "" (replicate (S n) "u") |}.

(** Numbers kept as the text of their literal. *)
Definition numbers : Numbers :=
  {| number := string; literalValue := fun s => s; zero := "0" |}.

(** A search back end with one composition per identifier and one match per
    label. *)
Definition bciAvUtils : @ActionSearchGloss.BciAvUtils numbers :=
  @ActionSearchGloss.Build_BciAvUtils numbers string
    (fun l => Normal ["label:" +:+ l])
    (fun n : string => Normal ["id:" +:+ n]).

(** Indicator identifiers: taken here to be 8993 up to 8999. *)
Definition isIndicator (t : Client.Token) : bool :=
  match t with
  | Client.TNum n => (8993 <=? n) && (n <=? 8999)
  | Client.TStr _ => false
  end.

Definition svgUtils : Client.SvgUtils := Client.specSvgUtils isIndicator.

(** A document of two symbols; the second carries an indicator at index 2. *)
Definition document (caret : Z) : Client.Page :=
  {| Client.changeEncodingContents :=
       {| Client.payloads :=
            [ {| Client.id := "a"; Client.label := "CAT";
                 Client.bciAvId := Client.Single 14905;
                 Client.modifierInfo := 0%nat |};
              {| Client.id := "b"; Client.label := "VERB";
                 Client.bciAvId :=
                   Client.Composite [Client.TNum 12335; Client.TStr ";";
                                     Client.TNum 8993; Client.TStr "/";
                                     Client.TNum 8499];
                 Client.modifierInfo := 1%nat |} ];
          Client.caretPosition := caret |};
     Client.arrays := {[ 0%nat := []; 1%nat := [] ]};
     Client.spoken := [] |}.

(** The caret on the second symbol. *)
Definition page : Client.Page := document 1.

Definition emptyPage : Client.Page :=
  Client.CommandClearEncoding.cellClicked
    {| Client.props_id := "clear"; Client.options_label := "Clear";
       Client.options_bciAvId := Client.Single 0 |} page.

Definition removeProps : Client.PropsType :=
  {| Client.props_id := "-rm"; Client.options_label := "remove indicator";
     Client.options_bciAvId := Client.Single 0 |}.

Definition pluralProps : Client.PropsType :=
  {| Client.props_id := "-pl"; Client.options_label := "PLURAL";
     Client.options_bciAvId := Client.Single 9011 |}.

Definition gloss (i : PaletteGenerator.GlossId) (d : string) : PaletteGenerator.GlossEntry :=
  {| PaletteGenerator.id := i; PaletteGenerator.description := d |}.

Definition fresh (glosses : list PaletteGenerator.GlossEntry) : PaletteGenerator.Globals :=
  {| PaletteGenerator.bliss_gloss := Some glosses;
     PaletteGenerator.errors := [];
     PaletteGenerator.uuidCalls := 0 |}.

End Sample.

(** ** Fetching the gloss file *)

Module PaletteFetch.
Import Js PaletteGenerator.


End PaletteFetch.

(** ** More documents and gloss files, for closed examples *)

Module MoreSamples.
Import Js.

Definition symbol (i l : string) (b : Client.BciAvIdType) (r : nat) : Client.EncodingType :=
  {| Client.id := i; Client.label := l; Client.bciAvId := b; Client.modifierInfo := r |}.

(** A document of one symbol, the caret on it. *)
Definition single (s : Client.EncodingType) : Client.Page :=
  {| Client.changeEncodingContents :=
       {| Client.payloads := [s]; Client.caretPosition := 0 |};
     Client.arrays := {[ Client.modifierInfo s := [] ]};
     Client.spoken := [] |}.

(** An indicator as the first token. *)
Definition indicatorFirst : Client.EncodingType :=
  symbol "i" "ACTION"
    (Client.Composite [Client.TNum 8993; Client.TStr "/"; Client.TNum 12335]) 0.

(** No indicator at all. *)
Definition noIndicator : Client.EncodingType :=
  symbol "n" "HOUSE"
    (Client.Composite [Client.TNum 14905; Client.TStr "/"; Client.TNum 12335;
                       Client.TStr "/"; Client.TNum 8499]) 0.

(** An indicator, as a single number. *)
Definition loneIndicator : Client.EncodingType :=
  symbol "l" "ACTION" (Client.Single 8993) 0.

Definition pastProps : Client.PropsType :=
  {| Client.props_id := "-past"; Client.options_label := "PAST";
     Client.options_bciAvId :=
       Client.Composite [Client.TNum 8999; Client.TStr ";"; Client.TNum 9004] |}.

Definition glosses : list PaletteGenerator.GlossEntry :=
  [ Sample.gloss (PaletteGenerator.IdString "12") "category";
    Sample.gloss (PaletteGenerator.IdString "7") "the cat sat";
    Sample.gloss (PaletteGenerator.IdString "5") "cat";
    Sample.gloss (PaletteGenerator.IdString "5") "C++";
    Sample.gloss (PaletteGenerator.IdString "9") "constructor" ].


End MoreSamples.

(** ** A session: the cells pressed one after the other *)

Module Session.
Import Js Client.

Inductive Cell :=
| PostModifier (props : PropsType)
| RemoveIndicator (props : PropsType)
| ClearEncoding (props : PropsType).

(** A click on a rendered cell.  The clear command has no [disabled]
    attribute. *)
Definition press `{SvgUtils} (cell : Cell) (page : Page) : Completion Page :=
  match cell with
  | PostModifier props => ActionPostModifierCell.click props page
  | RemoveIndicator props => ActionRemoveIndicatorCell.click props page
  | ClearEncoding props => Normal (CommandClearEncoding.cellClicked props page)
  end.

Fixpoint pressAll `{SvgUtils} (cells : list Cell) (page : Page) : Completion Page :=
  match cells with
  | [] => Normal page
  | cell :: rest => page ← press cell page; pressAll rest page
  end.

Definition isClear (cell : Cell) : bool :=
  match cell with
  | ClearEncoding _ => true
  | _ => false
  end.

End Session.

(** * Properties *)

(** ** Arrays and completions *)

Module JsFacts.
Import Js.

Lemma index_of_nat {A} (a : list A) (n : nat) : index a (Z.of_nat n) = a !! n.
Proof.
  unfold index. destruct (Z.ltb_spec (Z.of_nat n) 0) as [Hneg|_]; [lia|].
  by rewrite Nat2Z.id.
Qed.

Lemma index_negative {A} (a : list A) (i : Z) : i < 0 -> index a i = None.
Proof. intros Hi. unfold index. by destruct (Z.ltb_spec i 0); [|lia]. Qed.

Lemma index_empty {A} (i : Z) : index (@nil A) i = None.
Proof. unfold index. by destruct (i <? 0). Qed.

(** [a.slice(0, e)] keeps the first [e] elements. *)
Lemma slice_prefix {A} (a : list A) (e : Z) :
  0 <= e -> slice a 0 (Some e) = take (Z.to_nat e) a.
Proof.
  intros He. unfold slice, relativeIndex.
  destruct (Z.ltb_spec 0 0) as [?|_]; [lia|].
  destruct (Z.ltb_spec e 0) as [?|_]; [lia|].
  rewrite (Z.min_l 0) by lia. rewrite Z.sub_0_r.
  change (drop (Z.to_nat 0) a) with a.
  destruct (Z.le_gt_cases e (Z.of_nat (length a))) as [Hle|Hgt].
  - by rewrite Z.min_l by lia.
  - rewrite Z.min_r by lia. rewrite Nat2Z.id.
    rewrite firstn_all. symmetry. apply take_ge. lia.
Qed.

(** [a.slice(s)] drops the first [s] elements. *)
Lemma slice_suffix {A} (a : list A) (s : Z) :
  0 <= s -> slice a s None = drop (Z.to_nat s) a.
Proof.
  intros Hs. unfold slice, relativeIndex.
  destruct (Z.ltb_spec s 0) as [?|_]; [lia|].
  destruct (Z.le_gt_cases s (Z.of_nat (length a))) as [Hle|Hgt].
  - rewrite Z.min_l by lia. apply take_ge. rewrite length_drop. lia.
  - rewrite Z.min_r by lia. rewrite Nat2Z.id.
    rewrite (drop_ge a (Z.to_nat s)) by lia.
    rewrite drop_all. by destruct (Z.to_nat _).
Qed.

(** What is left when the elements at [i - 1] and [i] are cut out. *)
Lemma cut_pair_lookup {A} (a : list A) (i k : nat) :
  (1 <= i)%nat ->
  (take (i - 1) a ++ drop (i + 1) a) !! k =
    if decide (k < i - 1)%nat then a !! k else a !! (k + 2)%nat.
Proof.
  intros Hi. case_decide as Hk.
  - destruct (decide (k < length a)%nat) as [Hlen|Hlen].
    + rewrite lookup_app_l by (rewrite length_take; lia).
      by rewrite lookup_take_lt.
    + rewrite (lookup_ge_None_2 a k) by lia.
      apply lookup_ge_None_2. rewrite length_app, length_take, length_drop. lia.
  - destruct (decide (i - 1 <= length a)%nat) as [Hlen|Hlen].
    + rewrite lookup_app_r by (rewrite length_take; lia).
      rewrite length_take, Nat.min_l by lia. rewrite lookup_drop.
      f_equal. lia.
    + rewrite (lookup_ge_None_2 a (k + 2)) by lia.
      apply lookup_ge_None_2. rewrite length_app, length_take, length_drop. lia.
Qed.

Lemma cut_pair_length {A} (a : list A) (i : nat) :
  (1 <= i < length a)%nat ->
  (length (take (i - 1) a ++ drop (i + 1) a) + 2 = length a)%nat.
Proof. intros Hi. rewrite length_app, length_take, length_drop. lia. Qed.

Lemma bind_Normal {A B} (a : A) (k : A -> Completion B) :
  (Normal a ≫= k) = k a.
Proof. reflexivity. Qed.

Lemma bind_returns {A B} (c : Completion A) (k : A -> Completion B) (b : B) :
  (c ≫= k) = Normal b -> exists a, c = Normal a /\ k a = Normal b.
Proof. destruct c as [a|e]; [eauto|discriminate]. Qed.

End JsFacts.

(** ** The editing cells *)

Module ClientFacts.
Import Js JsFacts Client.

Section Cells.
Context `{!SvgUtils}.

Implicit Types (page : Page) (props : PropsType) (symbol : EncodingType).

Lemma caret_on_payload page (c : nat) symbol :
  caretPosition (changeEncodingContents page) = Z.of_nat c ->
  payloads (changeEncodingContents page) !! c = Some symbol ->
  index (payloads (changeEncodingContents page))
        (caretPosition (changeEncodingContents page)) = Some symbol.
Proof. intros -> Hc. by rewrite index_of_nat. Qed.

Lemma indicator_position_on_payload page (c : nat) symbol :
  caretPosition (changeEncodingContents page) = Z.of_nat c ->
  payloads (changeEncodingContents page) !! c = Some symbol ->
  ActionRemoveIndicatorCell.caretSymbolIndicatorPosition (changeEncodingContents page) =
    Normal (match findIndicators (bciAvId symbol) with
            | [] => -1
            | first :: _ => first
            end).
Proof.
  intros Hcaret Hc. unfold ActionRemoveIndicatorCell.caretSymbolIndicatorPosition.
  rewrite bool_decide_true.
  - by rewrite (caret_on_payload _ _ _ Hcaret Hc).
  - intros Hlen. apply lookup_lt_Some in Hc. lia.
Qed.

Lemma indicator_position_empty page :
  payloads (changeEncodingContents page) = [] ->
  ActionRemoveIndicatorCell.caretSymbolIndicatorPosition (changeEncodingContents page) =
    Normal (-1).
Proof.
  intros Hempty. unfold ActionRemoveIndicatorCell.caretSymbolIndicatorPosition.
  by rewrite Hempty.
Qed.

(** The removal, once the caret is known to be on a symbol with a token
    array: which symbol it writes, and where. *)
Lemma remove_indicator_step props page (c : nat) symbol tokens :
  caretPosition (changeEncodingContents page) = Z.of_nat c ->
  payloads (changeEncodingContents page) !! c = Some symbol ->
  bciAvId symbol = Composite tokens ->
  let indicatorIndex := match findIndicators (Composite tokens) with
                        | [] => -1
                        | first :: _ => first
                        end in
  ActionRemoveIndicatorCell.cellClicked props page =
    Normal {| changeEncodingContents :=
                {| payloads :=
                     <[c := {| id := id symbol +:+ props_id props;
                               label := label symbol;
                               bciAvId :=
                                 Composite (slice tokens 0 (Some (indicatorIndex - 1)) ++
                                            slice tokens (indicatorIndex + 1) None);
                               modifierInfo := modifierInfo symbol |}]>
                       (payloads (changeEncodingContents page));
                   caretPosition := Z.of_nat c |};
              arrays := arrays page;
              spoken := spoken page ++ [label symbol] |}.
Proof.
  intros Hcaret Hc Htokens. unfold ActionRemoveIndicatorCell.cellClicked.
  rewrite (indicator_position_on_payload _ _ _ Hcaret Hc), bind_Normal.
  rewrite (caret_on_payload _ _ _ Hcaret Hc), Htokens, Hcaret.
  by rewrite Nat2Z.id.
Qed.

Lemma post_modifier_step props page (c : nat) symbol pushedOnto :
  caretPosition (changeEncodingContents page) = Z.of_nat c ->
  payloads (changeEncodingContents page) !! c = Some symbol ->
  arrays page !! modifierInfo symbol = Some pushedOnto ->
  ActionPostModifierCell.cellClicked props page =
    Normal {| changeEncodingContents :=
                {| payloads :=
                     <[c := {| id := id symbol +:+ props_id props;
                               label := options_label props +:+ " " +:+ label symbol;
                               bciAvId :=
                                 Composite (asArray (bciAvId symbol) ++ [TStr "/"] ++
                                            asArray (options_bciAvId props));
                               modifierInfo := modifierInfo symbol |}]>
                       (payloads (changeEncodingContents page));
                   caretPosition := Z.of_nat c |};
              arrays :=
                <[modifierInfo symbol :=
                    pushedOnto ++ [{| modifierId := asArray (options_bciAvId props);
                                      modifierGloss := options_label props;
                                      isPrepended := false |}]]> (arrays page);
              spoken := spoken page ++
                          [options_label props +:+ " " +:+ label symbol] |}.
Proof.
  intros Hcaret Hc Harray. unfold ActionPostModifierCell.cellClicked.
  rewrite (caret_on_payload _ _ _ Hcaret Hc), Harray, Hcaret.
  by rewrite Nat2Z.id.
Qed.

(** An edit that completed found a symbol at the caret. *)
Lemma remove_indicator_completed props page page' :
  ActionRemoveIndicatorCell.cellClicked props page = Normal page' ->
  exists symbol tokens,
    index (payloads (changeEncodingContents page))
          (caretPosition (changeEncodingContents page)) = Some symbol
    /\ bciAvId symbol = Composite tokens.
Proof.
  unfold ActionRemoveIndicatorCell.cellClicked. intros Hdone.
  apply bind_returns in Hdone as (i & _ & Hdone).
  destruct (index _ _) as [symbol|]; [|discriminate].
  destruct (bciAvId symbol) as [|tokens] eqn:Htokens; [discriminate|].
  by exists symbol, tokens.
Qed.

Lemma post_modifier_completed props page page' :
  ActionPostModifierCell.cellClicked props page = Normal page' ->
  exists symbol pushedOnto,
    index (payloads (changeEncodingContents page))
          (caretPosition (changeEncodingContents page)) = Some symbol
    /\ arrays page !! modifierInfo symbol = Some pushedOnto.
Proof.
  unfold ActionPostModifierCell.cellClicked. intros Hdone.
  destruct (index _ _) as [symbol|]; [|discriminate].
  destruct (arrays page !! modifierInfo symbol) as [pushedOnto|] eqn:Harray;
    [|discriminate].
  by exists symbol, pushedOnto.
Qed.

End Cells.

(** The spec's reading of [findIndicators] reports the indices in increasing
    order, so its first element is the leftmost indicator. *)
Lemma scanIndicators_first isIndicator (tokens : list Token) (start : Z) (i : nat) t :
  tokens !! i = Some t ->
  isIndicator t = true ->
  (forall j u, (j < i)%nat -> tokens !! j = Some u -> isIndicator u = false) ->
  exists rest, scanIndicators isIndicator start tokens = (start + Z.of_nat i) :: rest.
Proof.
  revert start i. induction tokens as [|u tokens IH]; intros start i Hi Ht Hbefore.
  - by rewrite lookup_nil in Hi.
  - destruct i as [|i]; simpl in *.
    + injection Hi as ->. rewrite Ht. rewrite Z.add_0_r. eauto.
    + rewrite (Hbefore 0%nat u) by (done || lia). simpl.
      destruct (IH (start + 1) i Hi Ht) as [rest Hrest].
      * intros j v Hj Hv. apply (Hbefore (S j) v); [lia|done].
      * exists rest. rewrite Hrest. f_equal. lia.
Qed.

End ClientFacts.

Module ClientClaims.
Import Js JsFacts Client ClientFacts.

(** C1.  When the symbol at the caret has a token array whose first reported
    indicator is at index [i >= 1], the remove-indicator handler completes
    and writes at the caret a symbol whose tokens are [tokens[0 .. i-2]]
    followed by [tokens[i+1 ..]]: the elements before [i - 1] keep their
    place, every later element moves down by two, so exactly the indicator
    and the element before it are dropped (two elements fewer when [i] is
    inside the array).  The label and the [modifierInfo] array are kept. *)
Theorem remove_indicator_drops_indicator_and_predecessor
    `{!SvgUtils} props page (c : nat) symbol tokens (i : Z) others :
  caretPosition (changeEncodingContents page) = Z.of_nat c ->
  payloads (changeEncodingContents page) !! c = Some symbol ->
  bciAvId symbol = Composite tokens ->
  findIndicators (Composite tokens) = i :: others ->
  1 <= i ->
  let kept := take (Z.to_nat i - 1) tokens ++ drop (Z.to_nat i + 1) tokens in
  exists page',
    ActionRemoveIndicatorCell.cellClicked props page = Normal page'
    /\ payloads (changeEncodingContents page') !! c =
         Some {| id := id symbol +:+ props_id props;
                 label := label symbol;
                 bciAvId := Composite kept;
                 modifierInfo := modifierInfo symbol |}
    /\ (forall k : nat,
          kept !! k = if decide (k < Z.to_nat i - 1)%nat
                      then tokens !! k else tokens !! (k + 2)%nat)
    /\ ((Z.to_nat i < length tokens)%nat ->
        (length kept + 2 = length tokens)%nat).
Proof.
  intros Hcaret Hc Htokens Hfirst Hi kept.
  pose proof (remove_indicator_step props page c symbol tokens Hcaret Hc Htokens)
    as Hstep.
  rewrite Hfirst in Hstep. cbv zeta in Hstep.
  rewrite slice_prefix, slice_suffix in Hstep by lia.
  replace (Z.to_nat (i - 1)) with (Z.to_nat i - 1)%nat in Hstep by lia.
  replace (Z.to_nat (i + 1)) with (Z.to_nat i + 1)%nat in Hstep by lia.
  eexists. split; [exact Hstep|]. simpl. split; [|split].
  - apply list_lookup_insert_eq. by eapply lookup_lt_Some.
  - intros k. apply cut_pair_lookup. lia.
  - intros Hin. apply cut_pair_length. lia.
Qed.

Lemma remove_indicator_drops_indicator_and_predecessor_witness :
  exists page',
    @ActionRemoveIndicatorCell.cellClicked Sample.svgUtils Sample.removeProps Sample.page
      = Normal page'
    /\ payloads (changeEncodingContents page') !! 1%nat =
         Some {| id := "b-rm"; label := "VERB";
                 bciAvId := Composite [TNum 12335; TStr "/"; TNum 8499];
                 modifierInfo := 1%nat |}.
Proof.
  destruct (@remove_indicator_drops_indicator_and_predecessor Sample.svgUtils
              Sample.removeProps Sample.page 1%nat
              {| id := "b"; label := "VERB";
                 bciAvId := Composite [TNum 12335; TStr ";"; TNum 8993;
                                       TStr "/"; TNum 8499];
                 modifierInfo := 1%nat |}
              [TNum 12335; TStr ";"; TNum 8993; TStr "/"; TNum 8499]
              2 [] eq_refl eq_refl eq_refl eq_refl ltac:(lia))
    as (page' & Hdone & Hslot & _).
  exists page'. split; [exact Hdone | exact Hslot].
Defined.



(** C6.  An append-modifier or remove-indicator edit that completes on a
    document whose caret [c] is on a payload leaves the caret at [c], writes
    the replacement symbol into slot [c] (same [modifierInfo] array, the
    cell's id appended to the symbol's id), and leaves every other slot
    holding the symbol it held.  What such a slot shows through its
    [modifierInfo] array is unchanged too, unless it shares that array with
    the edited symbol. *)
Theorem edit_keeps_caret_and_other_payloads
    `{!SvgUtils} props page page' (c : nat) :
  caretPosition (changeEncodingContents page) = Z.of_nat c ->
  (c < length (payloads (changeEncodingContents page)))%nat ->
  ActionPostModifierCell.cellClicked props page = Normal page'
    \/ ActionRemoveIndicatorCell.cellClicked props page = Normal page' ->
  caretPosition (changeEncodingContents page') = Z.of_nat c
  /\ exists old new,
       payloads (changeEncodingContents page) !! c = Some old
       /\ payloads (changeEncodingContents page') =
            <[c := new]> (payloads (changeEncodingContents page))
       /\ payloads (changeEncodingContents page') !! c = Some new
       /\ id new = id old +:+ props_id props
       /\ modifierInfo new = modifierInfo old
       /\ (forall j : nat,
             j ≠ c ->
             payloads (changeEncodingContents page') !! j =
               payloads (changeEncodingContents page) !! j)
       /\ (forall (j : nat) other,
             j ≠ c ->
             payloads (changeEncodingContents page) !! j = Some other ->
             modifierInfo other ≠ modifierInfo old ->
             observed page' j = observed page j).
Proof.
  intros Hcaret Hlen [Hdone|Hdone].
  - destruct (post_modifier_completed _ _ _ Hdone) as (old & m & Hold & Harray).
    rewrite Hcaret, index_of_nat in Hold.
    rewrite (post_modifier_step props page c old m Hcaret Hold Harray) in Hdone.
    injection Hdone as <-. simpl. split; [done|].
    eexists old, _. split; [done|]. split; [done|].
    split; [by apply list_lookup_insert_eq|].
    split; [done|]. split; [done|]. split.
    + intros j Hj. by apply list_lookup_insert_ne.
    + intros j other Hj Hother Hdistinct. unfold observed. simpl.
      rewrite list_lookup_insert_ne by done. rewrite Hother. simpl.
      by rewrite lookup_insert_ne.
  - destruct (remove_indicator_completed _ _ _ Hdone) as (old & tokens & Hold & Htokens).
    rewrite Hcaret, index_of_nat in Hold.
    rewrite (remove_indicator_step props page c old tokens Hcaret Hold Htokens) in Hdone.
    injection Hdone as <-. simpl. split; [done|].
    eexists old, _. split; [done|]. split; [done|].
    split; [by apply list_lookup_insert_eq|].
    split; [done|]. split; [done|]. split.
    + intros j Hj. by apply list_lookup_insert_ne.
    + intros j other Hj Hother _. unfold observed. simpl.
      by rewrite list_lookup_insert_ne by done.
Qed.

Lemma edit_keeps_caret_and_other_payloads_witness :
  exists page',
    ActionPostModifierCell.cellClicked Sample.pluralProps Sample.page = Normal page'
    /\ caretPosition (changeEncodingContents page') = 1
    /\ payloads (changeEncodingContents page') !! 0%nat =
         payloads (changeEncodingContents Sample.page) !! 0%nat
    /\ observed page' 0 = observed Sample.page 0.
Proof.
  eexists. split; [reflexivity|].
  destruct (@edit_keeps_caret_and_other_payloads Sample.svgUtils
              Sample.pluralProps Sample.page _ 1%nat eq_refl
              ltac:(simpl; lia) (or_introl eq_refl))
    as (Hcaret & old & new & Hold & _ & _ & _ & _ & Hslots & Hobserved).
  injection Hold as <-.
  split; [exact Hcaret|]. split.
  - apply Hslots. lia.
  - eapply Hobserved; [lia | reflexivity | simpl; lia].
Defined.

(** The edits never make two slots share an array, and the cleared document
    has none to share. *)
Lemma edits_keep_arrays_distinct `{!SvgUtils} props page page' :
  distinctArrays page ->
  ActionPostModifierCell.cellClicked props page = Normal page'
    \/ ActionRemoveIndicatorCell.cellClicked props page = Normal page' ->
  distinctArrays page'.
Proof.
  intros Hdistinct Hdone.
  assert (exists (c : nat) old new,
            payloads (changeEncodingContents page) !! c = Some old
            /\ payloads (changeEncodingContents page') =
                 <[c := new]> (payloads (changeEncodingContents page))
            /\ modifierInfo new = modifierInfo old) as (c & old & new & Hold & Hnew & Hsame).
  { destruct Hdone as [Hdone|Hdone].
    - destruct (post_modifier_completed _ _ _ Hdone) as (old & m & Hold & Harray).
      unfold index in Hold. destruct (_ <? 0) eqn:Hneg; [discriminate|].
      apply Z.ltb_ge in Hneg.
      assert (caretPosition (changeEncodingContents page) =
                Z.of_nat (Z.to_nat (caretPosition (changeEncodingContents page))))
        as Hcaret by lia.
      rewrite (post_modifier_step props page _ old m Hcaret Hold Harray) in Hdone.
      injection Hdone as <-. by eexists _, old, _.
    - destruct (remove_indicator_completed _ _ _ Hdone) as (old & tokens & Hold & Htokens).
      unfold index in Hold. destruct (_ <? 0) eqn:Hneg; [discriminate|].
      apply Z.ltb_ge in Hneg.
      assert (caretPosition (changeEncodingContents page) =
                Z.of_nat (Z.to_nat (caretPosition (changeEncodingContents page))))
        as Hcaret by lia.
      rewrite (remove_indicator_step props page _ old tokens Hcaret Hold Htokens) in Hdone.
      injection Hdone as <-. by eexists _, old, _. }
  intros i j si sj Hij. rewrite Hnew. intros Hi Hj.
  assert (forall k s, <[c := new]> (payloads (changeEncodingContents page)) !! k = Some s ->
            exists s0, payloads (changeEncodingContents page) !! k = Some s0
                       /\ modifierInfo s = modifierInfo s0) as Hback.
  { intros k s Hk. destruct (decide (k = c)) as [->|Hne].
    - rewrite list_lookup_insert_eq in Hk by (by eapply lookup_lt_Some).
      injection Hk as <-. eauto.
    - rewrite list_lookup_insert_ne in Hk by done. eauto. }
  destruct (Hback _ _ Hi) as (si0 & Hi0 & ->).
  destruct (Hback _ _ Hj) as (sj0 & Hj0 & ->).
  by eapply Hdistinct.
Qed.

Lemma cleared_arrays_distinct props page :
  distinctArrays (CommandClearEncoding.cellClicked props page).
Proof. intros i j si sj _ Hi. simpl in Hi. by rewrite lookup_nil in Hi. Qed.

(** C9.  On a document with no payload, whatever its caret, the indicator
    position is computed as -1 and the computation completes: it reads no
    payload (a read would have thrown, there being none) and never consults
    [findIndicators].  The remove-indicator button is then rendered
    disabled, and a click on it leaves the page as it is: the removal is not
    run. *)
Theorem empty_document_disables_removal `{!SvgUtils} props page :
  payloads (changeEncodingContents page) = [] ->
  ActionRemoveIndicatorCell.caretSymbolIndicatorPosition (changeEncodingContents page)
    = Normal (-1)
  /\ ActionRemoveIndicatorCell.disabled page = Normal true
  /\ ActionRemoveIndicatorCell.click props page = Normal page
  /\ (forall i, index (payloads (changeEncodingContents page)) i = None).
Proof.
  intros Hempty.
  pose proof (indicator_position_empty page Hempty) as Hposition.
  split; [done|].
  assert (ActionRemoveIndicatorCell.disabled page = Normal true) as Hdisabled.
  { unfold ActionRemoveIndicatorCell.disabled. by rewrite Hposition. }
  split; [done|]. split.
  - unfold ActionRemoveIndicatorCell.click. by rewrite Hdisabled.
  - intros i. rewrite Hempty. apply index_empty.
Qed.

Lemma empty_document_disables_removal_witness :
  @ActionRemoveIndicatorCell.caretSymbolIndicatorPosition Sample.svgUtils
    (changeEncodingContents Sample.emptyPage) = Normal (-1)
  /\ @ActionRemoveIndicatorCell.disabled Sample.svgUtils Sample.emptyPage = Normal true
  /\ @ActionRemoveIndicatorCell.click Sample.svgUtils Sample.removeProps Sample.emptyPage
       = Normal Sample.emptyPage.
Proof.
  destruct (@empty_document_disables_removal Sample.svgUtils Sample.removeProps
              Sample.emptyPage eq_refl) as (Hposition & Hdisabled & Hclick & _).
  exact (conj Hposition (conj Hdisabled Hclick)).
Defined.

End ClientClaims.

(** ** Word matches *)

Module RegExpFacts.
Import Js JsFacts.

Lemma list_ascii_of_string_app (a b : string) :
  list_ascii_of_string (a +:+ b) = list_ascii_of_string a ++ list_ascii_of_string b.
Proof. induction a as [|c a IH]; simpl; [done|by rewrite IH]. Qed.

(** A pattern character is parsed as itself, whatever follows it. *)
Lemma parsePattern_plain_cons (c : ascii) (r : list ascii) :
  isSyntaxCharacter c = false ->
  parsePattern (c :: r) = cons (NChar c) <$> parsePattern r.
Proof.
  intros Hc. destruct c as [[] [] [] [] [] [] [] []]; try reflexivity;
    vm_compute in Hc; discriminate Hc.
Qed.

Lemma parsePattern_plain_app (l : list ascii) (ns : list Node) (r : list ascii) :
  Forall (fun c => isSyntaxCharacter c = false) l ->
  parsePattern r = Some ns ->
  parsePattern (l ++ r) = Some ((NChar <$> l) ++ ns).
Proof.
  intros Hl Hr. induction Hl as [|c l Hc _ IH]; [done|].
  rewrite <- app_comm_cons, parsePattern_plain_cons by done.
  by rewrite IH.
Qed.

(** The pattern [findBciAvId] builds for a plain label. *)
Lemma wordMatch_pattern (label : string) :
  plain label ->
  parsePattern (list_ascii_of_string ("\b" +:+ label +:+ "\b")) =
    Some (NWordB :: (NChar <$> list_ascii_of_string label) ++ [NWordB]).
Proof.
  intros Hplain. rewrite !list_ascii_of_string_app.
  change (list_ascii_of_string "\b") with ["\"%char; "b"%char].
  change (parsePattern (["\"%char; "b"%char] ++ ?r)) with (cons NWordB <$> parsePattern r).
  by rewrite (parsePattern_plain_app _ [NWordB] _ Hplain).
Qed.

Lemma RegExp_plain `{!Engine} (label : string) :
  plain label ->
  RegExp ("\b" +:+ label +:+ "\b") =
    Normal (testNodes (NWordB :: (NChar <$> list_ascii_of_string label) ++ [NWordB])).
Proof. intros Hplain. unfold RegExp. by rewrite wordMatch_pattern. Qed.

Lemma last_cons_option {A} (prev : option A) (c : A) (w : list A) :
  from_option Some prev (last (c :: w)) = from_option Some (Some c) (last w).
Proof. rewrite last_cons. by destruct (last w). Qed.

(** Pattern characters match exactly when the input starts with them. *)
Lemma matchNodes_chars (w : list ascii) (ns : list Node) prev (rest : list ascii) :
  matchNodes ((NChar <$> w) ++ ns) prev rest = true <->
  exists post, rest = w ++ post
               /\ matchNodes ns (from_option Some prev (last w)) post = true.
Proof.
  revert prev rest. induction w as [|c w IH]; intros prev rest.
  - simpl. split; [eauto|]. by intros (post & -> & ?).
  - rewrite last_cons_option. destruct rest as [|d rest]; simpl.
    + split; [done|]. by intros (post & ? & _).
    + rewrite andb_true_iff, Ascii.eqb_eq, IH. split.
      * intros (-> & post & -> & Hpost). by exists post.
      * intros (post & [= -> ->] & Hpost). split; [done|]. by exists post.
Qed.

Lemma last_snoc_option {A} (pre w : list A) :
  last (pre ++ w) = from_option Some (last pre) (last w).
Proof. rewrite last_app. by destruct (last w). Qed.

(** One attempt at a position: boundary, word, boundary. *)
Lemma matchNodes_word (w pre rest : list ascii) :
  matchNodes (NWordB :: (NChar <$> w) ++ [NWordB]) (last pre) rest = true <->
  exists post, rest = w ++ post
               /\ atBoundary (last pre) (w ++ post) = true
               /\ atBoundary (last (pre ++ w)) post = true.
Proof.
  simpl. rewrite andb_true_iff, matchNodes_chars. split.
  - intros (Hstart & post & -> & Hend). exists post.
    simpl in Hend. rewrite andb_true_r in Hend. by rewrite last_snoc_option.
  - intros (post & -> & Hstart & Hend). split; [done|]. exists post.
    split; [done|]. simpl. rewrite andb_true_r. by rewrite <- last_snoc_option.
Qed.

(** The search from a position finds a whole-word occurrence at or after
    it. *)
Lemma searchFrom_word (w pre rest : list ascii) :
  searchFrom (NWordB :: (NChar <$> w) ++ [NWordB]) (last pre) rest = true <->
  exists mid post, rest = mid ++ w ++ post
                   /\ atBoundary (last (pre ++ mid)) (w ++ post) = true
                   /\ atBoundary (last (pre ++ mid ++ w)) post = true.
Proof.
  revert pre. induction rest as [|d rest IH]; intros pre.
  - cbn [searchFrom]. rewrite orb_false_r, matchNodes_word. split.
    + intros (post & Hrest & Hstart & Hend). exists [], post.
      by rewrite app_nil_r.
    + intros (mid & post & Hrest & Hstart & Hend).
      destruct mid; [|done]. rewrite app_nil_r in Hstart. eauto.
  - cbn [searchFrom]. rewrite orb_true_iff, matchNodes_word.
    replace (Some d) with (last (pre ++ [d])) by apply last_snoc.
    rewrite IH. split.
    + intros [(post & Hrest & Hstart & Hend)|(mid & post & Hrest & Hstart & Hend)].
      * exists [], post. by rewrite app_nil_r.
      * exists (d :: mid), post. rewrite Hrest.
        rewrite <- !app_assoc in Hstart, Hend. by simpl in *.
    + intros (mid & post & Hrest & Hstart & Hend). destruct mid as [|d' mid].
      * left. rewrite app_nil_r in Hstart. eauto.
      * right. injection Hrest as -> ->. exists mid, post.
        rewrite <- !app_assoc. by simpl.
Qed.

(** For a plain label the word match of the code is the whole-word
    occurrence of the spec. *)
Lemma testNodes_whole_word (label text : string) :
  testNodes (NWordB :: (NChar <$> list_ascii_of_string label) ++ [NWordB]) text = true
  <-> occursAsWholeWord label text.
Proof.
  unfold testNodes, occursAsWholeWord.
  change None with (last (@nil ascii)). by rewrite searchFrom_word.
Qed.

End RegExpFacts.

(** ** The batch palette builder *)

Module GeneratorFacts.
Import Js JsFacts RegExpFacts PaletteGenerator.
Import Client (Token, TNum, TStr).

Lemma property_assign {V} (obj : list (string * V)) (key : string) (value : V) :
  property (assign obj key value) key = Some value.
Proof.
  induction obj as [|[k v] obj IH]; simpl.
  - by rewrite bool_decide_true.
  - destruct (bool_decide_reflect (k = key)) as [->|Hne]; simpl.
    + by rewrite bool_decide_true.
    + by rewrite bool_decide_false.
Qed.

Lemma property_assign_other {V} (obj : list (string * V)) (key other : string) (value : V) :
  other ≠ key -> property (assign obj key value) other = property obj other.
Proof.
  intros Hne. induction obj as [|[k v] obj IH]; simpl.
  - by rewrite bool_decide_false.
  - destruct (bool_decide_reflect (k = key)) as [->|Hk]; simpl.
    + by rewrite !bool_decide_false.
    + by rewrite IH.
Qed.

Section Builder.
Context `{!Engine} `{!Uuid}.

Implicit Types (bliss : option (list GlossEntry))
  (glosses : list GlossEntry) (b : Build).

(** The loop of [findBciAvId], once the pattern is known to compile: the
    entries kept are those whose description is the label or passes the word
    match, in the order of the gloss file. *)
Lemma scanGlosses_kept label_ (wordMatch : string -> bool) glosses (found : list Match) :
  RegExp ("\b" +:+ label_ +:+ "\b") = Normal wordMatch ->
  scanGlosses label_ glosses found =
    Normal (found ++
            (matchOf <$>
               filter (fun gloss => label_ = description gloss
                                    \/ wordMatch (description gloss) = true) glosses)).
Proof.
  intros Hpattern. revert found.
  induction glosses as [|gloss glosses IH]; intros found; simpl.
  - by rewrite app_nil_r.
  - rewrite Hpattern, bind_Normal.
    destruct (bool_decide_reflect (label_ = description gloss)) as [Heq|Hne]; simpl.
    + rewrite IH, filter_cons_True by (by left).
      by rewrite fmap_cons, <- app_assoc.
    + destruct (wordMatch (description gloss)) eqn:Hword.
      * rewrite IH, filter_cons_True by (by right).
        by rewrite fmap_cons, <- app_assoc.
      * rewrite IH, filter_cons_False; [done|]. intros [?|?]; congruence.
Qed.


Lemma findBciAvId_kept label_ (wordMatch : string -> bool) glosses :
  in_specialEncodings label_ = false ->
  RegExp ("\b" +:+ label_ +:+ "\b") = Normal wordMatch ->
  let kept := matchOf <$>
                filter (fun gloss => label_ = description gloss
                                     \/ wordMatch (description gloss) = true) glosses in
  findBciAvId label_ (Some glosses) =
    match kept with
    | [] => Throw (Error ("BciAvId not found for label: " +:+ label_))
    | _ :: _ => Normal (Matches kept)
    end.
Proof.
  intros Hown Hpattern kept. unfold findBciAvId.
  rewrite Hown, (scanGlosses_kept _ _ _ _ Hpattern), bind_Normal. simpl.
  fold kept. by destruct kept.
Qed.

(** How the [try] block ends does not depend on the cell it fills in. *)
Lemma tryBlock_ended label_ bliss (cell : Cell) (recorded : list (string * list Match)) :
  (tryBlock label_ bliss cell recorded).2 = attempt label_ bliss.
Proof.
  unfold attempt, tryBlock.
  destruct (negb (isNaN (parseInt label_))).
  - by destruct (findByBciAvId label_ bliss).
  - destruct (findBciAvId label_ bliss) as [[[|first others]|]|]; done.
Qed.

(** When it throws, all it has done is store [parseInt(label)] in the cell. *)
Lemma tryBlock_thrown label_ bliss (cell : Cell) (recorded : list (string * list Match)) e :
  attempt label_ bliss = Throw e ->
  tryBlock label_ bliss cell recorded =
    (set_bciAvId (Number_ (parseInt label_)) cell, recorded, Throw e).
Proof.
  rewrite <- (tryBlock_ended label_ bliss cell recorded). unfold tryBlock.
  destruct (negb (isNaN (parseInt label_))).
  - destruct (findByBciAvId label_ bliss); simpl; [done|by intros [= ->]].
  - destruct (findBciAvId label_ bliss) as [[[|first others]|]|]; simpl;
      first [ done | by intros [= ->] ].
Qed.

Lemma forLabel_blank start_row start_column (i j : nat) b :
  forLabel start_row start_column i j BLANK_CELL_LABEL b = Normal b.
Proof. unfold forLabel. by rewrite bool_decide_true. Qed.

Lemma failure_blank bliss : failure bliss BLANK_CELL_LABEL = None.
Proof. unfold failure. by rewrite bool_decide_true. Qed.

(** A cell that fails: one message more, and the not-found cell stored under
    the cell's key. *)
Lemma forLabel_failed start_row start_column (i j : nat) label_ b e :
  failure (bliss_gloss (globals b)) label_ = Some e ->
  forLabel start_row start_column i j label_ b =
    Normal {| cells := assign (cells b)
                         (label_ +:+ "-" +:+ uuidv4 (uuidCalls (globals b)))
                         (notFoundCell label_ (start_row + Z.of_nat i)
                                       (start_column + Z.of_nat j));
              matchByLabel := matchByLabel b;
              globals := {| bliss_gloss := bliss_gloss (globals b);
                            errors := errors (globals b) ++ [message e];
                            uuidCalls := S (uuidCalls (globals b)) |} |}.
Proof.
  unfold failure, forLabel.
  destruct (bool_decide (label_ = BLANK_CELL_LABEL)); [done|].
  destruct (attempt label_ (bliss_gloss (globals b))) as [|e'] eqn:Hended; [done|].
  intros [= ->]. by rewrite (tryBlock_thrown _ _ _ _ _ Hended).
Qed.

(** Every cell: the callback returns, leaves the gloss file alone, adds the
    cell's failure message if it has one, and draws an identifier unless the
    cell is blank. *)
Lemma forLabel_returns start_row start_column (i j : nat) label_ b :
  exists b',
    forLabel start_row start_column i j label_ b = Normal b'
    /\ bliss_gloss (globals b') = bliss_gloss (globals b)
    /\ errors (globals b') =
         errors (globals b) ++
         (message <$> omap (failure (bliss_gloss (globals b))) [label_])
    /\ uuidCalls (globals b') =
         (uuidCalls (globals b) +
          length (filter (fun l => l ≠ BLANK_CELL_LABEL) [label_]))%nat.
Proof.
  destruct (decide (label_ = BLANK_CELL_LABEL)) as [->|Hlabel].
  - exists b. rewrite forLabel_blank. cbn [omap list_omap].
    rewrite failure_blank, filter_cons_False by (by intros []).
    simpl. by rewrite app_nil_r, Nat.add_0_r.
  - rewrite filter_cons_True by done.
    destruct (failure (bliss_gloss (globals b)) label_) as [e|] eqn:Hfailure.
    + rewrite (forLabel_failed _ _ _ _ _ _ _ Hfailure). eexists. split; [done|].
      simpl. rewrite Hfailure. simpl. split; [done|]. split; [done|]. lia.
    + simpl. rewrite Hfailure. revert Hfailure. unfold failure, forLabel.
      rewrite bool_decide_false by done.
      rewrite <- (tryBlock_ended label_ _
                    (newCell label_ (start_row + Z.of_nat i) (start_column + Z.of_nat j))
                    (matchByLabel b)).
      unfold newCell.
      destruct (tryBlock _ _ _ _) as [[cell recorded] [[]|e]]; simpl; [|done].
      intros _. eexists. split; [done|]. simpl.
      rewrite app_nil_r. split; [done|]. split; [done|]. lia.
Qed.

Lemma forRow_returns start_row start_column (i j : nat) (row : list string) b :
  exists b',
    forRow start_row start_column i j row b = Normal b'
    /\ bliss_gloss (globals b') = bliss_gloss (globals b)
    /\ errors (globals b') =
         errors (globals b) ++ (message <$> omap (failure (bliss_gloss (globals b))) row)
    /\ uuidCalls (globals b') =
         (uuidCalls (globals b) +
          length (filter (fun l => l ≠ BLANK_CELL_LABEL) row))%nat.
Proof.
  revert j b. induction row as [|label_ row IH]; intros j b.
  - exists b. simpl. by rewrite app_nil_r, Nat.add_0_r.
  - destruct (forLabel_returns start_row start_column i j label_ b)
      as (b1 & Hstep & Hbliss1 & Herrors1 & Huuid1).
    destruct (IH (S j) b1) as (b' & Hrest & Hbliss & Herrors & Huuid).
    exists b'. cbn [forRow]. rewrite Hstep, bind_Normal.
    split; [done|]. split; [congruence|]. split.
    + rewrite Herrors, Herrors1, Hbliss1.
      change (label_ :: row) with ([label_] ++ row).
      by rewrite omap_app, fmap_app, app_assoc.
    + rewrite Huuid, Huuid1.
      change (label_ :: row) with ([label_] ++ row).
      rewrite filter_app, length_app. lia.
Qed.

Lemma forRows_returns start_row start_column (i : nat)
    (palette_labels : list (list string)) b :
  exists b',
    forRows start_row start_column i palette_labels b = Normal b'
    /\ bliss_gloss (globals b') = bliss_gloss (globals b)
    /\ errors (globals b') =
         errors (globals b) ++ failureMessages (bliss_gloss (globals b)) palette_labels
    /\ uuidCalls (globals b') =
         (uuidCalls (globals b) + length (labelled palette_labels))%nat.
Proof.
  unfold failureMessages, labelled.
  revert i b. induction palette_labels as [|row rows IH]; intros i b.
  - exists b. simpl. by rewrite app_nil_r, Nat.add_0_r.
  - destruct (forRow_returns start_row start_column i 0 row b)
      as (b1 & Hstep & Hbliss1 & Herrors1 & Huuid1).
    destruct (IH (S i) b1) as (b' & Hrest & Hbliss & Herrors & Huuid).
    exists b'. cbn [forRows]. rewrite Hstep, bind_Normal.
    split; [done|]. split; [congruence|]. split.
    + rewrite Herrors, Herrors1, Hbliss1. simpl.
      by rewrite omap_app, fmap_app, app_assoc.
    + rewrite Huuid, Huuid1. simpl. rewrite filter_app, length_app. lia.
Qed.

(** A call of [processPaletteLabels], whatever the module's [errors] array
    held before it. *)
Lemma processPaletteLabels_returns (palette_labels : list (list string))
    (start_row start_column : Z) (g : Globals) :
  exists r g',
    processPaletteLabels palette_labels start_row start_column g = Normal (r, g')
    /\ bliss_gloss g' = bliss_gloss g
    /\ returnedErrors r g' = failureMessages (bliss_gloss g) palette_labels
    /\ uuidCalls g' = (uuidCalls g + length (labelled palette_labels))%nat.
Proof.
  unfold processPaletteLabels.
  destruct (forRows_returns start_row start_column 0 palette_labels
              {| cells := []; matchByLabel := [];
                 globals := {| bliss_gloss := bliss_gloss g; errors := [];
                               uuidCalls := uuidCalls g |} |})
    as (b' & Hrows & Hbliss & Herrors & Huuid).
  rewrite Hrows, bind_Normal. by eexists _, _.
Qed.

(** *** The palette at the end of a call *)

Lemma forRow_forCells start_row start_column (i j : nat) (row : list string) b :
  forRow start_row start_column i j row b =
    forCells start_row start_column (rowCells i j row) b.
Proof.
  revert j b. induction row as [|l row IH]; intros j b; [done|].
  cbn [forRow rowCells forCells].
  destruct (forLabel start_row start_column i j l b) as [b1|e]; [|done].
  rewrite !bind_Normal. apply IH.
Qed.

Lemma forCells_app start_row start_column (cs1 cs2 : list (nat * nat * string)) b :
  forCells start_row start_column (cs1 ++ cs2) b =
    forCells start_row start_column cs1 b ≫= forCells start_row start_column cs2.
Proof.
  revert b. induction cs1 as [|[[i j] l] cs1 IH]; intros b; [done|].
  cbn [app forCells].
  destruct (forLabel start_row start_column i j l b) as [b1|e]; [|done].
  rewrite !bind_Normal. apply IH.
Qed.

Lemma forRows_forCells start_row start_column (i : nat)
    (palette_labels : list (list string)) b :
  forRows start_row start_column i palette_labels b =
    forCells start_row start_column (layoutCells i palette_labels) b.
Proof.
  revert i b. induction palette_labels as [|row rows IH]; intros i b; [done|].
  cbn [forRows layoutCells]. rewrite forCells_app, forRow_forCells.
  destruct (forCells start_row start_column (rowCells i 0 row) b) as [b1|e]; [|done].
  rewrite !bind_Normal. apply IH.
Qed.

(** A cell that is not blank assigns one property, under its key. *)
Lemma forLabel_assigns start_row start_column (i j : nat) (l : string) b :
  l ≠ BLANK_CELL_LABEL ->
  exists b' cell,
    forLabel start_row start_column i j l b = Normal b'
    /\ cells b' = assign (cells b) (l +:+ "-" +:+ uuidv4 (uuidCalls (globals b))) cell
    /\ uuidCalls (globals b') = S (uuidCalls (globals b))
    /\ bliss_gloss (globals b') = bliss_gloss (globals b).
Proof.
  intros Hlabel. unfold forLabel. rewrite bool_decide_false by done.
  destruct (tryBlock _ _ _ _) as [[cell recorded] [[]|e]]; simpl.
  - by eexists _, _.
  - by eexists _, _.
Qed.

Lemma keysFrom_app (n : nat) (cs1 cs2 : list (nat * nat * string)) :
  keysFrom n (cs1 ++ cs2) =
    keysFrom n cs1 ++ keysFrom (n + length (keysFrom n cs1)) cs2.
Proof.
  revert n. induction cs1 as [|[[i j] l] cs1 IH]; intros n.
  - simpl. by rewrite Nat.add_0_r.
  - cbn [app keysFrom]. destruct (bool_decide (l = BLANK_CELL_LABEL)); [apply IH|].
    rewrite IH. simpl. do 3 f_equal. lia.
Qed.

(** The loop over a list of cells returns; it has then drawn one identifier
    per key, and a property it found is still there unless one of the keys
    is its name. *)
Lemma forCells_returns start_row start_column (cs : list (nat * nat * string)) b :
  exists b',
    forCells start_row start_column cs b = Normal b'
    /\ bliss_gloss (globals b') = bliss_gloss (globals b)
    /\ uuidCalls (globals b') =
         (uuidCalls (globals b) + length (keysFrom (uuidCalls (globals b)) cs))%nat
    /\ (forall key cell,
          property (cells b) key = Some cell ->
          key ∉ keysFrom (uuidCalls (globals b)) cs ->
          property (cells b') key = Some cell).
Proof.
  revert b. induction cs as [|[[i j] l] cs IH]; intros b.
  - exists b. simpl. by rewrite Nat.add_0_r.
  - cbn [forCells keysFrom].
    destruct (bool_decide_reflect (l = BLANK_CELL_LABEL)) as [->|Hlabel].
    + rewrite forLabel_blank, bind_Normal. apply IH.
    + destruct (forLabel_assigns start_row start_column i j l b Hlabel)
        as (b1 & cell1 & Hstep & Hcells & Huuid & Hbliss).
      rewrite Hstep, bind_Normal.
      destruct (IH b1) as (b' & Hrest & Hbliss' & Huuid' & Hkept).
      rewrite Huuid in Huuid', Hkept.
      exists b'. split; [done|]. split; [congruence|]. split; [simpl; lia|].
      intros key cell Hkey Hfresh. apply not_elem_of_cons in Hfresh as [Hne Hfresh].
      apply Hkept; [|done]. rewrite Hcells. by rewrite property_assign_other.
Qed.

(** A failing cell of the list leaves its not-found cell in the palette,
    when no later cell is given the same key. *)
Lemma forCells_not_found start_row start_column
    (before after : list (nat * nat * string)) (i j : nat) (l : string) e b :
  failure (bliss_gloss (globals b)) l = Some e ->
  let n := (uuidCalls (globals b) + length (keysFrom (uuidCalls (globals b)) before))%nat in
  (l +:+ "-" +:+ uuidv4 n) ∉ keysFrom (S n) after ->
  exists b',
    forCells start_row start_column (before ++ (i, j, l) :: after) b = Normal b'
    /\ property (cells b') (l +:+ "-" +:+ uuidv4 n) =
         Some (notFoundCell l (start_row + Z.of_nat i) (start_column + Z.of_nat j)).
Proof.
  intros Hfailure n Hfresh.
  destruct (forCells_returns start_row start_column before b)
    as (b1 & Hbefore & Hbliss1 & Huuid1 & _).
  rewrite forCells_app, Hbefore, bind_Normal. cbn [forCells].
  rewrite <- Hbliss1 in Hfailure.
  rewrite (forLabel_failed _ _ _ _ _ _ _ Hfailure), bind_Normal.
  match goal with |- context [forCells _ _ after ?b2] =>
    destruct (forCells_returns start_row start_column after b2)
      as (b' & Hafter & _ & _ & Hkept)
  end.
  exists b'. split; [done|]. simpl in Hkept. rewrite Huuid1 in Hkept.
  apply Hkept; [|done]. apply property_assign.
Qed.

Lemma rowCells_lookup (i j0 j : nat) (row : list string) (l : string) :
  row !! j = Some l -> (i, (j0 + j)%nat, l) ∈ rowCells i j0 row.
Proof.
  revert j0 j. induction row as [|l0 row IH]; intros j0 j Hj; [done|].
  destruct j as [|j]; simpl in *.
  - injection Hj as ->. rewrite Nat.add_0_r. apply list_elem_of_here.
  - apply list_elem_of_further. replace (j0 + S j)%nat with (S j0 + j)%nat by lia.
    by apply IH.
Qed.

Lemma layoutCells_lookup (i0 i j : nat) (palette_labels : list (list string))
    (row : list string) (l : string) :
  palette_labels !! i = Some row ->
  row !! j = Some l ->
  ((i0 + i)%nat, j, l) ∈ layoutCells i0 palette_labels.
Proof.
  revert i0 i. induction palette_labels as [|row0 rows IH]; intros i0 i Hi Hj; [done|].
  destruct i as [|i]; simpl in *.
  - injection Hi as ->. rewrite Nat.add_0_r. apply elem_of_app. left.
    by apply (rowCells_lookup i0 0 j).
  - apply elem_of_app. right. replace (i0 + S i)%nat with (S i0 + i)%nat by lia.
    by apply IH.
Qed.

End Builder.

End GeneratorFacts.

Module GeneratorClaims.
Import Js JsFacts RegExpFacts PaletteGenerator GeneratorFacts.
Import Client (Token, TNum, TStr).

Lemma failureMessages_length `{!Engine} (bliss : option (list GlossEntry))
    (palette_labels : list (list string)) :
  length (failureMessages bliss palette_labels) =
    length (failedCells bliss palette_labels).
Proof.
  unfold failureMessages, failedCells. rewrite length_fmap.
  induction (concat palette_labels) as [|l ls IH]; [done|].
  cbn [omap list_omap]. destruct (failure bliss l) as [e|] eqn:Hfailure.
  - rewrite filter_cons_True by (by rewrite Hfailure). simpl. by rewrite <- IH.
  - rewrite filter_cons_False; [done|]. rewrite Hfailure. by intros [? ?].
Qed.

(** C5.  Whatever the layout, the gloss file (fetched or not), the engine
    and the state of the module, [processPaletteLabels] returns and throws
    nothing.  The errors it returns are the messages of all the failed cells
    of the layout, in row order, and it has drawn one identifier per cell
    that is not blank: no failure stops the loop.  Every failed cell, at row
    [i] and column [j], is in the returned palette as a cell at
    [start_row + i], [start_column + j] whose label is the original label
    followed by " NOT FOUND" and whose [bciAvId] is
    [15733, "/", 14133, ";", 9004, "/", 25570] (the keys being distinct, as
    fresh identifiers make them).  The callback run on a failing cell, in
    whatever state, returns with that cell's message appended to the errors,
    the matches untouched, and that cell stored under the cell's key. *)
Theorem batch_build_never_throws `{!Engine} `{!Uuid}
    (palette_labels : list (list string)) (start_row start_column : Z) (g : Globals) :
  let notFound (l : string) (i j : nat) :=
    {| cell_type := type;
       options :=
         {| label := l +:+ " NOT FOUND";
            bciAvId := Tokens [TNum 15733; TStr "/"; TNum 14133; TStr ";";
                               TNum 9004; TStr "/"; TNum 25570];
            rowStart := start_row + Z.of_nat i; rowSpan := 1;
            columnStart := start_column + Z.of_nat j; columnSpan := 1 |} |} in
  (exists r g',
     processPaletteLabels palette_labels start_row start_column g = Normal (r, g')
     /\ returnedErrors r g' = failureMessages (bliss_gloss g) palette_labels
     /\ uuidCalls g' = (uuidCalls g + length (labelled palette_labels))%nat
     /\ (NoDup (assignedKeys g palette_labels) ->
         forall (i j : nat) (row : list string) (l : string) (e : JsError),
           palette_labels !! i = Some row ->
           row !! j = Some l ->
           failure (bliss_gloss g) l = Some e ->
           exists n, property (palette_cells (paletteJson r)) (l +:+ "-" +:+ uuidv4 n)
                       = Some (notFound l i j)))
  /\ (forall (b : Build) (i j : nat) (l : string) (e : JsError),
        failure (bliss_gloss (globals b)) l = Some e ->
        exists b',
          forLabel start_row start_column i j l b = Normal b'
          /\ errors (globals b') = errors (globals b) ++ [message e]
          /\ matchByLabel b' = matchByLabel b
          /\ property (cells b') (l +:+ "-" +:+ uuidv4 (uuidCalls (globals b))) =
               Some (notFound l i j))
  /\ (forall (b : Build) (i j : nat) (l : string),
        returns (forLabel start_row start_column i j l b)).
Proof.
  intros notFound. split; [|split].
  - destruct (processPaletteLabels_returns palette_labels start_row start_column g)
      as (r & g' & Hcall & _ & Herrors & Huuid).
    exists r, g'. split; [done|]. split; [done|]. split; [done|].
    intros Hkeys i j row l e Hi Hj Hfailure.
    pose proof (layoutCells_lookup 0 i j palette_labels row l Hi Hj) as Hcell.
    apply list_elem_of_split in Hcell as (before & after & Hsplit). simpl in Hsplit.
    assert (l ≠ BLANK_CELL_LABEL) as Hlabel.
    { intros ->. by rewrite failure_blank in Hfailure. }
    unfold assignedKeys in Hkeys. rewrite Hsplit, keysFrom_app in Hkeys.
    apply NoDup_app in Hkeys as (_ & _ & Hkeys). cbn [keysFrom] in Hkeys.
    rewrite bool_decide_false in Hkeys by done.
    apply NoDup_cons in Hkeys as [Hfresh _].
    destruct (forCells_not_found start_row start_column before after i j l e
                {| cells := []; matchByLabel := [];
                   globals := {| bliss_gloss := bliss_gloss g; errors := [];
                                 uuidCalls := uuidCalls g |} |} Hfailure Hfresh)
      as (b' & Hrun & Hstored).
    revert Hcall. unfold processPaletteLabels.
    rewrite forRows_forCells, Hsplit, Hrun, bind_Normal. intros [= <- _].
    eexists. exact Hstored.
  - intros b i j l e Hfailure.
    rewrite (forLabel_failed _ _ _ _ _ _ _ Hfailure). eexists. split; [done|].
    simpl. split; [done|]. split; [done|]. apply property_assign.
  - intros b i j l.
    destruct (forLabel_returns start_row start_column i j l b) as (b' & Hstep & _).
    by exists b'.
Qed.

Lemma batch_build_never_throws_witness :
  exists r g',
    @processPaletteLabels Sample.engine Sample.uuid
      [["BLANK"; "cat"]; ["7"; "dog"]] 2 1
      (Sample.fresh [Sample.gloss (IdNumber 5) "cat"]) = Normal (r, g')
    /\ returnedErrors r g' =
         ["BciAvId not found for BCI AV ID: 7"; "BciAvId not found for label: dog"]
    /\ uuidCalls g' = 3%nat
    /\ exists n,
         property (palette_cells (paletteJson r))
                  ("dog" +:+ "-" +:+ @uuidv4 Sample.uuid n) =
           Some (notFoundCell "dog" 3 2).
Proof.
  destruct (@batch_build_never_throws Sample.engine Sample.uuid
              [["BLANK"; "cat"]; ["7"; "dog"]] 2 1
              (Sample.fresh [Sample.gloss (IdNumber 5) "cat"]))
    as [(r & g' & Hcall & Herrors & Huuid & Hcells) _].
  exists r, g'. split; [exact Hcall|]. split; [exact Herrors|].
  split; [exact Huuid|].
  refine (Hcells _ 1%nat 1%nat ["7"; "dog"] "dog"
            (Error "BciAvId not found for label: dog") eq_refl eq_refl eq_refl).
  apply (bool_decide_unpack _). vm_compute. exact I.
Defined.

(** C10.  A call of [processPaletteLabels] starts from an empty [errors]
    array whatever the array held: the errors it returns are the messages of
    the failed cells of its own layout, as many as there are such cells.
    This holds again for a second call made in the state the first one left,
    whose errors are those of the second layout only. *)
Theorem errors_are_those_of_the_call `{!Engine} `{!Uuid}
    (first second : list (list string)) (row1 column1 row2 column2 : Z) (g : Globals) :
  exists r1 g1 r2 g2,
    processPaletteLabels first row1 column1 g = Normal (r1, g1)
    /\ returnedErrors r1 g1 = failureMessages (bliss_gloss g) first
    /\ length (returnedErrors r1 g1) = length (failedCells (bliss_gloss g) first)
    /\ processPaletteLabels second row2 column2 g1 = Normal (r2, g2)
    /\ returnedErrors r2 g2 = failureMessages (bliss_gloss g) second
    /\ length (returnedErrors r2 g2) = length (failedCells (bliss_gloss g) second).
Proof.
  destruct (processPaletteLabels_returns first row1 column1 g)
    as (r1 & g1 & Hcall1 & Hbliss1 & Herrors1 & _).
  destruct (processPaletteLabels_returns second row2 column2 g1)
    as (r2 & g2 & Hcall2 & _ & Herrors2 & _).
  rewrite Hbliss1 in Herrors2.
  exists r1, g1, r2, g2. split; [done|]. split; [done|].
  split; [by rewrite Herrors1, failureMessages_length|].
  split; [done|]. split; [done|].
  by rewrite Herrors2, failureMessages_length.
Qed.

(** The array is shared: once a second call has run, the errors of the first
    result read as those of the second. *)
Lemma earlier_result_shows_later_errors (r1 r2 : Returned) (g2 : Globals) :
  returnedErrors r1 g2 = returnedErrors r2 g2.
Proof. reflexivity. Qed.

(** [findByBciAvId] compares the label, a string, with [===]: an entry whose
    id is a number is never the one it finds. *)
Lemma findByBciAvId_misses_number_ids (bciAvId_ : string) (glosses : list GlossEntry) :
  Forall (fun entry => exists n, id entry = IdNumber n) glosses ->
  findByBciAvId bciAvId_ (Some glosses) =
    Throw (Error ("BciAvId not found for BCI AV ID: " +:+ bciAvId_)).
Proof.
  intros Hnumbers. unfold findByBciAvId.
  replace (List.find _ glosses) with (@None GlossEntry); [done|].
  induction Hnumbers as [|entry glosses [n Hn] _ IH]; [done|].
  simpl. by rewrite Hn.
Qed.

(** With string ids it finds the first entry whose id is the label, letter
    for letter. *)
Lemma findByBciAvId_finds_equal_string (bciAvId_ : string) (glosses : list GlossEntry)
    (entry : GlossEntry) :
  findByBciAvId bciAvId_ (Some glosses) = Normal entry ->
  id entry = IdString bciAvId_ /\ entry ∈ glosses.
Proof.
  unfold findByBciAvId. destruct (List.find _ glosses) as [found|] eqn:Hfind; [|done].
  intros [= ->]. apply find_some in Hfind as [Hin Hid].
  split; [|by apply list_elem_of_In].
  unfold strictEqualsString in Hid. destruct (id entry) as [|t]; [done|].
  by apply bool_decide_eq_true in Hid as ->.
Qed.

(** C3.  The claim fails on the code.  The label "7" parses as the integer 7
    and the gloss file has an entry for 7, stored with a number as its id
    (which [parseInt] normalises to 7 in [findBciAvId]); yet
    [findByBciAvId] does not find it, and the cell comes out as the
    not-found cell with one error recorded.  The entry is found when its id
    is the string "7", but then not for the label "07", which parses as 7
    too. *)
Theorem numeric_label_misses_entry_stored_as_number (engine : Engine) (uuid : Uuid) :
  let entry := Sample.gloss (IdNumber 7) "seven" in
  parseInt "7" = Int 7
  /\ parseIntId (id entry) = Int 7
  /\ findByBciAvId "7" (Some [entry]) =
       Throw (Error "BciAvId not found for BCI AV ID: 7")
  /\ processPaletteLabels [["7"]] 2 1 (Sample.fresh [entry]) =
       Normal ({| paletteJson :=
                    {| name := palette_name;
                       palette_cells := [("7-" +:+ uuidv4 0, notFoundCell "7" 2 1)] |};
                  matches := [] |},
               {| bliss_gloss := Some [entry];
                  errors := ["BciAvId not found for BCI AV ID: 7"];
                  uuidCalls := 1 |})
  /\ findByBciAvId "7" (Some [Sample.gloss (IdString "7") "seven"]) =
       Normal (Sample.gloss (IdString "7") "seven")
  /\ parseInt "07" = Int 7
  /\ findByBciAvId "07" (Some [Sample.gloss (IdString "7") "seven"]) =
       Throw (Error "BciAvId not found for BCI AV ID: 07").
Proof. repeat split. Qed.

(** For a plain label, and one that is no member of [Object.prototype], the
    matches are the entries whose description is the label or contains it as
    a whole word, in the order of the gloss file. *)
Lemma plain_label_keeps_whole_word_matches `{!Engine} (label_ : string)
    (glosses : list GlossEntry) :
  plain label_ ->
  in_specialEncodings label_ = false ->
  exists wordMatch : string -> bool,
    (forall text, wordMatch text = true <-> occursAsWholeWord label_ text)
    /\ let kept := matchOf <$>
                     filter (fun gloss => label_ = description gloss
                                          \/ wordMatch (description gloss) = true)
                            glosses in
       findBciAvId label_ (Some glosses) =
         match kept with
         | [] => Throw (Error ("BciAvId not found for label: " +:+ label_))
         | _ :: _ => Normal (Matches kept)
         end.
Proof.
  intros Hplain Hown. eexists. split.
  - intros text. apply testNodes_whole_word.
  - apply findBciAvId_kept; [done|]. by apply RegExp_plain.
Qed.

Lemma cat_is_matched_as_a_word :
  plain "cat"
  /\ ~ occursAsWholeWord "cat" "category"
  /\ occursAsWholeWord "cat" "the cat sat".
Proof.
  split; [|split].
  - repeat constructor.
  - by rewrite <- testNodes_whole_word.
  - by rewrite <- testNodes_whole_word.
Qed.

(** C4.  The claim fails on the code.  The label is spliced into the pattern
    as it is, so its syntax characters are read as regular-expression
    operators: "c.t" is in no table, the description "cat" neither is "c.t"
    nor contains it as a whole word, and its entry is kept all the same. *)
Theorem pattern_label_keeps_other_words (engine : Engine) :
  in_specialEncodings "c.t" = false
  /\ findBciAvId "c.t" (Some [Sample.gloss (IdString "1") "cat"]) =
       Normal (Matches [{| match_bciAvId := Int 1; match_label := "cat" |}])
  /\ "c.t" ≠ "cat"
  /\ ~ occursAsWholeWord "c.t" "cat".
Proof.
  split; [done|]. split; [done|]. split; [done|].
  by rewrite <- testNodes_whole_word.
Qed.

(** Among the matches kept, those whose description is the label come from
    the entries whose description is the label, one for one. *)
Lemma verbatim_matches (label_ : string) (wordMatch : string -> bool)
    (glosses : list GlossEntry) :
  filter (fun m => match_label m = label_)
         (matchOf <$>
            filter (fun gloss => label_ = description gloss
                                 \/ wordMatch (description gloss) = true) glosses)
  = matchOf <$> filter (fun gloss => description gloss = label_) glosses.
Proof.
  induction glosses as [|gloss glosses IH]; [done|].
  destruct (decide (description gloss = label_)) as [Heq|Hne].
  - rewrite (filter_cons_True _ gloss) by (by left).
    rewrite (filter_cons_True (fun gloss => description gloss = label_)) by done.
    rewrite !fmap_cons, filter_cons_True by done. by rewrite IH.
  - rewrite (filter_cons_False (fun gloss => description gloss = label_)) by done.
    destruct (wordMatch (description gloss)) eqn:Hword.
    + rewrite (filter_cons_True _ gloss) by (by right).
      rewrite fmap_cons, filter_cons_False by done. by rewrite IH.
    + rewrite (filter_cons_False _ gloss); [done|]. intros [?|?]; congruence.
Qed.

(** C7, counterexample.  Two entries with the same description: the label
    equal to it is found twice, not once. *)
Lemma same_description_twice_is_found_twice :
  let found := [{| match_bciAvId := Int 1; match_label := "cat" |};
                {| match_bciAvId := Int 2; match_label := "cat" |}] in
  @findBciAvId Sample.engine "cat"
     (Some [Sample.gloss (IdString "1") "cat"; Sample.gloss (IdString "2") "cat"])
    = Normal (Matches found)
  /\ length (filter (fun m => match_label m = "cat") found) = 2%nat.
Proof. split; reflexivity. Qed.

(** C7, amended.  For a label that is no member of [Object.prototype] and
    that the engine accepts inside the word-match pattern, if some entry of
    the gloss file has the label as its description, [findBciAvId] returns
    an array of matches, and the matches whose description is the label are
    the entries with that description, one for one and in order: at least
    one, and exactly one when a single entry has that description. *)
Theorem verbatim_label_is_found `{!Engine} (label_ : string) (glosses : list GlossEntry) :
  in_specialEncodings label_ = false ->
  returns (RegExp ("\b" +:+ label_ +:+ "\b")) ->
  (exists gloss, gloss ∈ glosses /\ description gloss = label_) ->
  exists found,
    findBciAvId label_ (Some glosses) = Normal (Matches found)
    /\ filter (fun m => match_label m = label_) found =
         matchOf <$> filter (fun gloss => description gloss = label_) glosses
    /\ (1 <= length (filter (fun m => match_label m = label_) found))%nat
    /\ (forall only,
          filter (fun gloss => description gloss = label_) glosses = [only] ->
          filter (fun m => match_label m = label_) found = [matchOf only]).
Proof.
  intros Hown [wordMatch Hpattern] (gloss & Hin & Hdescription).
  pose proof (findBciAvId_kept label_ wordMatch glosses Hown Hpattern) as Hfound.
  pose proof (verbatim_matches label_ wordMatch glosses) as Hverbatim.
  cbv zeta in Hfound.
  set (kept := matchOf <$> filter _ glosses) in Hfound, Hverbatim.
  assert (gloss ∈ filter (fun gloss => description gloss = label_) glosses) as Hgloss
    by (by apply list_elem_of_filter).
  exists kept. split; [|split; [done|split]].
  - destruct kept as [|m kept']; [|done].
    rewrite filter_nil in Hverbatim. symmetry in Hverbatim.
    apply fmap_nil_inv in Hverbatim. rewrite Hverbatim in Hgloss.
    by apply not_elem_of_nil in Hgloss.
  - rewrite Hverbatim, length_fmap.
    assert (forall l : list GlossEntry, gloss ∈ l -> (1 <= length l)%nat) as Hlength.
    { intros [|first others] Hl; [by apply not_elem_of_nil in Hl|simpl; lia]. }
    by apply Hlength.
  - intros only Honly. by rewrite Hverbatim, Honly.
Qed.

Lemma verbatim_label_is_found_witness :
  exists found,
    @findBciAvId Sample.engine "cat"
       (Some [Sample.gloss (IdString "1") "category";
              Sample.gloss (IdString "2") "cat";
              Sample.gloss (IdString "3") "the cat sat"]) = Normal (Matches found)
    /\ filter (fun m => match_label m = "cat") found =
         [{| match_bciAvId := Int 2; match_label := "cat" |}].
Proof.
  destruct (@verbatim_label_is_found Sample.engine "cat"
              [Sample.gloss (IdString "1") "category";
               Sample.gloss (IdString "2") "cat";
               Sample.gloss (IdString "3") "the cat sat"]
              eq_refl
              (ex_intro _ _ eq_refl)
              (ex_intro _ (Sample.gloss (IdString "2") "cat")
                 (conj (list_elem_of_further _ _ _ (list_elem_of_here _ _)) eq_refl)))
    as (found & Hfound & _ & _ & Honly).
  exists found. split; [exact Hfound|]. exact (Honly _ eq_refl).
Defined.

End GeneratorClaims.

(** ** The gloss search form *)

Module SearchFacts.
Import Js JsFacts ActionSearchGloss.

#[local] Arguments isWhiteSpace : simpl never.

Lemma isWhiteSpace_spec (bytes : list ascii) :
  isWhiteSpace bytes = true <->
  exists cp, cp ∈ whiteSpaceCodePoints /\ bytes = utf8 cp.
Proof.
  unfold isWhiteSpace. rewrite bool_decide_eq_true, list_elem_of_fmap.
  split; intros (cp & ? & ?); by exists cp.
Qed.

Lemma leadingWhiteSpace_length (s : list ascii) :
  (leadingWhiteSpace s <= length s)%nat.
Proof.
  destruct s as [|c1 [|c2 [|c3 r]]]; simpl;
    repeat (match goal with |- context [isWhiteSpace ?w] => destruct (isWhiteSpace w) end);
    lia.
Qed.

Lemma trimStart_unfold (s : list ascii) :
  trimStart s =
    match leadingWhiteSpace s with
    | O => s
    | S k => trimStart (drop (S k) s)
    end.
Proof.
  destruct s as [|c1 [|c2 [|c3 r]]]; cbn -[isWhiteSpace];
    repeat (match goal with
            | |- context [isWhiteSpace ?w] => destruct (isWhiteSpace w); cbn -[isWhiteSpace]
            end);
    reflexivity.
Qed.

Lemma trimEnd_cons (c : ascii) (r : list ascii) :
  trimEnd (c :: r) =
    match trimStart (c :: r) with
    | [] => []
    | _ :: _ => c :: trimEnd r
    end.
Proof. reflexivity. Qed.

(** The white space a text starts with is still there when the text goes on. *)
Lemma leadingWhiteSpace_app (s t : list ascii) (k : nat) :
  leadingWhiteSpace s = S k -> leadingWhiteSpace (s ++ t) = S k.
Proof.
  destruct s as [|c1 [|c2 [|c3 r]]]; simpl; [done|..];
    repeat (match goal with |- context [isWhiteSpace ?w] => destruct (isWhiteSpace w) end);
    try done; destruct t as [|d1 [|d2 t]]; simpl;
    repeat (match goal with |- context [isWhiteSpace ?w] => destruct (isWhiteSpace w) end);
    done.
Qed.

(** What [leadingWhiteSpace] counts is one white space character. *)
Lemma leadingWhiteSpace_take (s : list ascii) (k : nat) :
  leadingWhiteSpace s = S k -> isWhiteSpace (take (S k) s) = true.
Proof.
  destruct s as [|c1 [|c2 [|c3 r]]]; simpl; [done|..];
    repeat (match goal with
            | |- context [if isWhiteSpace ?w then _ else _] =>
                destruct (isWhiteSpace w) eqn:?
            end);
    intros [= <-]; done.
Qed.

(** A white space character in front of a text is counted in full. *)
Lemma leadingWhiteSpace_utf8 (cp : Z) (rest : list ascii) :
  cp ∈ whiteSpaceCodePoints ->
  leadingWhiteSpace (utf8 cp ++ rest) = length (utf8 cp).
Proof.
  unfold whiteSpaceCodePoints. intros Hcp.
  repeat (apply elem_of_cons in Hcp as [->|Hcp]; [reflexivity|]).
  by apply not_elem_of_nil in Hcp.
Qed.

Lemma trimStart_clean (s : list ascii) : leadingWhiteSpace (trimStart s) = 0%nat.
Proof.
  remember (length s) as n eqn:Hn. revert s Hn.
  induction n as [n IH] using lt_wf_ind. intros s ->.
  rewrite trimStart_unfold.
  destruct (leadingWhiteSpace s) as [|k] eqn:Hlead; [done|].
  pose proof (leadingWhiteSpace_length s).
  apply (IH (length (drop (S k) s))); [|done]. rewrite length_drop. lia.
Qed.

Lemma trimStart_fixed (s : list ascii) :
  leadingWhiteSpace s = 0%nat -> trimStart s = s.
Proof. intros Hlead. by rewrite trimStart_unfold, Hlead. Qed.

Lemma trimStart_idempotent (s : list ascii) : trimStart (trimStart s) = trimStart s.
Proof. apply trimStart_fixed, trimStart_clean. Qed.

(** White space in front of a text is skipped, whatever the text. *)
Lemma trimStart_app_blank (t q : list ascii) :
  trimStart t = [] -> trimStart (t ++ q) = trimStart q.
Proof.
  remember (length t) as n eqn:Hn. revert t Hn.
  induction n as [n IH] using lt_wf_ind. intros t -> Hblank.
  rewrite trimStart_unfold in Hblank.
  destruct (leadingWhiteSpace t) as [|k] eqn:Hlead; [by rewrite Hblank|].
  pose proof (leadingWhiteSpace_length t).
  rewrite trimStart_unfold, (leadingWhiteSpace_app _ _ _ Hlead).
  rewrite drop_app_le by lia.
  apply (IH (length (drop (S k) t))); [|done|done]. rewrite length_drop. lia.
Qed.

(** What [trimEnd] leaves out is white space. *)
Lemma trimEnd_split (r : list ascii) :
  exists q, r = trimEnd r ++ q /\ trimStart q = [].
Proof.
  induction r as [|c r (q & Hr & Hq)]; [by exists []|].
  rewrite trimEnd_cons. destruct (trimStart (c :: r)) as [|d t] eqn:Hblank.
  - by exists (c :: r).
  - exists q. split; [|done]. simpl. by rewrite <- Hr.
Qed.

Lemma trimEnd_idempotent (m : list ascii) : trimEnd (trimEnd m) = trimEnd m.
Proof.
  induction m as [|c r IH]; [done|].
  rewrite trimEnd_cons. destruct (trimStart (c :: r)) as [|d t] eqn:Hblank; [done|].
  rewrite trimEnd_cons. destruct (trimStart (c :: trimEnd r)) as [|d' t'] eqn:Hkept.
  - destruct (trimEnd_split r) as (q & Hr & Hq).
    pose proof (trimStart_app_blank (c :: trimEnd r) q Hkept) as Hall.
    simpl app in Hall. rewrite <- Hr, Hq in Hall. congruence.
  - by rewrite IH.
Qed.

Lemma trimEnd_clean (m : list ascii) :
  leadingWhiteSpace m = 0%nat -> leadingWhiteSpace (trimEnd m) = 0%nat.
Proof.
  intros Hlead. destruct (leadingWhiteSpace (trimEnd m)) as [|k] eqn:Hkept; [done|].
  destruct (trimEnd_split m) as (q & Hm & _).
  pose proof (leadingWhiteSpace_app _ q _ Hkept) as Hall.
  rewrite <- Hm in Hall. congruence.
Qed.

(** Trimmed text has no white space left at either end. *)
Lemma trim_idempotent (s : string) : trim (trim s) = trim s.
Proof.
  unfold trim. rewrite list_ascii_of_string_of_list_ascii.
  rewrite (trimStart_fixed (trimEnd _)) by apply trimEnd_clean, trimStart_clean.
  by rewrite trimEnd_idempotent.
Qed.

Lemma length_zero_iff_empty (s : string) : String.length s = 0%nat <-> s = "".
Proof. by destruct s. Qed.

(** [Number] on a text that is already trimmed and not empty. *)
Lemma Number_trimmed `{!Numbers} (field : string) :
  trim field ≠ "" ->
  Number (trim field) =
    if isStrNumericLiteral (trim field) then Num (literalValue (trim field))
    else NumNaN.
Proof.
  intros Hterm. unfold Number. rewrite trim_idempotent.
  by rewrite bool_decide_false.
Qed.

End SearchFacts.

Module SearchClaims.
Import Js JsFacts ActionSearchGloss SearchFacts.

(** C8.  The submit handler splits three ways on the trimmed text of the
    field.  Empty: no search is made, the match set is empty and
    [noSearchTerm] is true.  A numeric literal: the matches are those of
    [findCompositionsUsingId] on its value.  Any other text: the matches are
    those of [findBciAvId] on it.  Whenever something is rendered,
    [noSearchTerm] is true exactly when the trimmed text is empty, be there
    matches or not. *)
Theorem search_term_three_way `{!Numbers} `{!BciAvUtils} (field : string) :
  let term := trim field in
  (term = "" ->
   searchGloss field =
     Normal {| matches := []; noSearchTerm := true; searchTerm := term |})
  /\ (term ≠ "" -> isStrNumericLiteral term = true ->
      searchGloss field =
        found ← findCompositionsUsingId (literalValue term);
        Normal {| matches := found; noSearchTerm := false; searchTerm := term |})
  /\ (term ≠ "" -> isStrNumericLiteral term = false ->
      searchGloss field =
        found ← findBciAvId term;
        Normal {| matches := found; noSearchTerm := false; searchTerm := term |})
  /\ (forall rendered,
        searchGloss field = Normal rendered ->
        (noSearchTerm rendered = true <-> term = "")).
Proof.
  intros term. subst term. unfold searchGloss.
  split; [|split; [|split]].
  - intros Hterm. by rewrite bool_decide_true by (by apply length_zero_iff_empty).
  - intros Hterm Hnumeric.
    rewrite bool_decide_false by (by rewrite length_zero_iff_empty).
    by rewrite Number_trimmed, Hnumeric.
  - intros Hterm Htext.
    rewrite bool_decide_false by (by rewrite length_zero_iff_empty).
    by rewrite Number_trimmed, Htext.
  - intros rendered.
    destruct (bool_decide_reflect (String.length (trim field) = 0%nat)) as [Hempty|Hterm].
    + intros [= <-]. simpl. by rewrite <- length_zero_iff_empty.
    + intros Hdone. apply bind_returns in Hdone as (found & _ & [= <-]). simpl.
      rewrite <- length_zero_iff_empty. by split.
Qed.

Lemma search_term_three_way_witness :
  @searchGloss Sample.numbers Sample.bciAvUtils "   " =
    Normal (@Build_Rendered Sample.numbers Sample.bciAvUtils [] true "")
  /\ @searchGloss Sample.numbers Sample.bciAvUtils (fromCodePoint [160; 12288; 65279]) =
       Normal (@Build_Rendered Sample.numbers Sample.bciAvUtils [] true "")
  /\ @searchGloss Sample.numbers Sample.bciAvUtils " 12345 " =
       Normal (@Build_Rendered Sample.numbers Sample.bciAvUtils
                 ["id:12345"] false "12345")
  /\ @searchGloss Sample.numbers Sample.bciAvUtils "12 cats" =
       Normal (@Build_Rendered Sample.numbers Sample.bciAvUtils
                 ["label:12 cats"] false "12 cats").
Proof.
  split; [|split; [|split]].
  - exact (proj1 (@search_term_three_way Sample.numbers Sample.bciAvUtils "   ") eq_refl).
  - exact (proj1 (@search_term_three_way Sample.numbers Sample.bciAvUtils
                    (fromCodePoint [160; 12288; 65279])) eq_refl).
  - refine (proj1 (proj2 (@search_term_three_way Sample.numbers Sample.bciAvUtils
                            " 12345 ")) _ eq_refl).
    discriminate.
  - refine (proj1 (proj2 (proj2 (@search_term_three_way Sample.numbers
                                   Sample.bciAvUtils "12 cats"))) _ eq_refl).
    discriminate.
Defined.

End SearchClaims.

(** * Further properties *)

(** ** The editing cells: edge cases, errors and compositions *)

Module ClientExtras.
Import Js JsFacts Client ClientFacts.

(** [a.slice(0, e)] for a negative [e] leaves out the last [-e] elements. *)
Lemma slice_negative_end {A} (a : list A) (e : Z) :
  e < 0 -> slice a 0 (Some e) = take (length a - Z.to_nat (- e)) a.
Proof.
  intros He. unfold slice, relativeIndex.
  destruct (Z.ltb_spec 0 0) as [?|_]; [lia|].
  destruct (Z.ltb_spec e 0) as [_|?]; [|lia].
  rewrite (Z.min_l 0) by lia. rewrite Z.sub_0_r.
  change (drop (Z.to_nat 0) a) with a. f_equal. lia.
Qed.

Implicit Types (page : Page) (props : PropsType) (symbol : EncodingType).

(** X1.  When the first reported indicator is at index 0, the
    remove-indicator handler does not remove it: [slice(0, -1)] keeps all
    tokens but the last and [slice(1)] all but the first, so it writes the
    tokens without their last one followed by the tokens without their first
    one.  With two tokens or more the result still starts with the indicator
    and has [2 * length - 2] tokens. *)
Theorem remove_indicator_at_index_zero `{!SvgUtils} props page (c : nat) symbol tokens others :
  caretPosition (changeEncodingContents page) = Z.of_nat c ->
  payloads (changeEncodingContents page) !! c = Some symbol ->
  bciAvId symbol = Composite tokens ->
  findIndicators (Composite tokens) = 0 :: others ->
  let written := take (length tokens - 1) tokens ++ drop 1 tokens in
  exists page',
    ActionRemoveIndicatorCell.cellClicked props page = Normal page'
    /\ payloads (changeEncodingContents page') !! c =
         Some {| id := id symbol +:+ props_id props;
                 label := label symbol;
                 bciAvId := Composite written;
                 modifierInfo := modifierInfo symbol |}
    /\ ((2 <= length tokens)%nat ->
        head written = head tokens
        /\ length written = (2 * length tokens - 2)%nat).
Proof.
  intros Hcaret Hc Htokens Hfirst written.
  pose proof (remove_indicator_step props page c symbol tokens Hcaret Hc Htokens)
    as Hstep.
  rewrite Hfirst in Hstep. cbv zeta in Hstep.
  rewrite slice_negative_end, slice_suffix in Hstep by lia.
  change (Z.to_nat (- (0 - 1))) with 1%nat in Hstep.
  change (Z.to_nat (0 + 1)) with 1%nat in Hstep.
  eexists. split; [exact Hstep|]. simpl. split.
  - apply list_lookup_insert_eq. by eapply lookup_lt_Some.
  - intros Hlen. unfold written. split.
    + destruct tokens as [|t0 [|t1 tokens']]; simpl in *; [lia|lia|reflexivity].
    + rewrite length_app, length_take, length_drop. lia.
Qed.

Lemma remove_indicator_at_index_zero_witness :
  exists page',
    @ActionRemoveIndicatorCell.cellClicked Sample.svgUtils Sample.removeProps
      (MoreSamples.single MoreSamples.indicatorFirst) = Normal page'
    /\ payloads (changeEncodingContents page') !! 0%nat =
         Some {| id := "i-rm"; label := "ACTION";
                 bciAvId := Composite [TNum 8993; TStr "/"; TStr "/"; TNum 12335];
                 modifierInfo := 0%nat |}.
Proof.
  destruct (@remove_indicator_at_index_zero Sample.svgUtils Sample.removeProps
              (MoreSamples.single MoreSamples.indicatorFirst) 0%nat
              MoreSamples.indicatorFirst
              [TNum 8993; TStr "/"; TNum 12335] [] eq_refl eq_refl eq_refl eq_refl)
    as (page' & Hdone & Hslot & _).
  exists page'. split; [exact Hdone | exact Hslot].
Defined.

(** X2.  When [findIndicators] reports nothing for the symbol at the caret,
    the button is rendered disabled and a click leaves the page as it is.
    The handler itself is no no-op in that state: run all the same, it
    takes -1 for the index and writes the tokens without their last two
    followed by all the tokens. *)
Theorem no_indicator_click_is_noop_handler_is_not `{!SvgUtils} props page (c : nat) symbol tokens :
  caretPosition (changeEncodingContents page) = Z.of_nat c ->
  payloads (changeEncodingContents page) !! c = Some symbol ->
  bciAvId symbol = Composite tokens ->
  findIndicators (Composite tokens) = [] ->
  ActionRemoveIndicatorCell.disabled page = Normal true
  /\ ActionRemoveIndicatorCell.click props page = Normal page
  /\ exists page',
       ActionRemoveIndicatorCell.cellClicked props page = Normal page'
       /\ payloads (changeEncodingContents page') !! c =
            Some {| id := id symbol +:+ props_id props;
                    label := label symbol;
                    bciAvId := Composite (take (length tokens - 2) tokens ++ tokens);
                    modifierInfo := modifierInfo symbol |}.
Proof.
  intros Hcaret Hc Htokens Hnone.
  assert (ActionRemoveIndicatorCell.disabled page = Normal true) as Hdisabled.
  { unfold ActionRemoveIndicatorCell.disabled.
    rewrite (indicator_position_on_payload _ _ _ Hcaret Hc), Htokens, Hnone.
    reflexivity. }
  split; [done|]. split.
  - unfold ActionRemoveIndicatorCell.click. by rewrite Hdisabled.
  - pose proof (remove_indicator_step props page c symbol tokens Hcaret Hc Htokens)
      as Hstep.
    rewrite Hnone in Hstep. cbv zeta in Hstep.
    rewrite slice_negative_end, slice_suffix in Hstep by lia.
    change (Z.to_nat (- (-1 - 1))) with 2%nat in Hstep.
    change (drop (Z.to_nat (-1 + 1)) tokens) with tokens in Hstep.
    eexists. split; [exact Hstep|]. simpl.
    apply list_lookup_insert_eq. by eapply lookup_lt_Some.
Qed.

Lemma no_indicator_click_is_noop_handler_is_not_witness :
  @ActionRemoveIndicatorCell.click Sample.svgUtils Sample.removeProps
     (MoreSamples.single MoreSamples.noIndicator)
    = Normal (MoreSamples.single MoreSamples.noIndicator)
  /\ exists page',
       @ActionRemoveIndicatorCell.cellClicked Sample.svgUtils Sample.removeProps
         (MoreSamples.single MoreSamples.noIndicator) = Normal page'
       /\ payloads (changeEncodingContents page') !! 0%nat =
            Some {| id := "n-rm"; label := "HOUSE";
                    bciAvId :=
                      Composite [TNum 14905; TStr "/"; TNum 12335;
                                 TNum 14905; TStr "/"; TNum 12335; TStr "/"; TNum 8499];
                    modifierInfo := 0%nat |}.
Proof.
  destruct (@no_indicator_click_is_noop_handler_is_not Sample.svgUtils
              Sample.removeProps (MoreSamples.single MoreSamples.noIndicator) 0%nat
              MoreSamples.noIndicator
              [TNum 14905; TStr "/"; TNum 12335; TStr "/"; TNum 8499]
              eq_refl eq_refl eq_refl eq_refl)
    as (_ & Hclick & Hhandler).
  exact (conj Hclick Hhandler).
Defined.

(** X3.  When the caret is on no payload (negative, or past the end), both
    handlers throw a TypeError on reading [bciAvId] of undefined and write
    nothing.  If the document has payloads all the same, nothing guards
    this: the append-modifier button is enabled (it only looks at the number
    of payloads), so a click on it throws, and rendering the
    remove-indicator button throws too. *)
Theorem caret_off_payloads_throws `{!SvgUtils} props page :
  index (payloads (changeEncodingContents page))
        (caretPosition (changeEncodingContents page)) = None ->
  let thrown := TypeError (ReadOfUndefined "bciAvId") in
  ActionRemoveIndicatorCell.cellClicked props page = Throw thrown
  /\ ActionPostModifierCell.cellClicked props page = Throw thrown
  /\ (payloads (changeEncodingContents page) ≠ [] ->
      ActionPostModifierCell.disabled page = false
      /\ ActionPostModifierCell.click props page = Throw thrown
      /\ ActionRemoveIndicatorCell.disabled page = Throw thrown
      /\ ActionRemoveIndicatorCell.click props page = Throw thrown).
Proof.
  intros Hoff thrown.
  assert (ActionPostModifierCell.cellClicked props page = Throw thrown) as Hpost.
  { unfold ActionPostModifierCell.cellClicked. by rewrite Hoff. }
  assert (ActionRemoveIndicatorCell.cellClicked props page = Throw thrown) as Hremove.
  { unfold ActionRemoveIndicatorCell.cellClicked,
      ActionRemoveIndicatorCell.caretSymbolIndicatorPosition.
    rewrite Hoff. by case_bool_decide. }
  split; [done|]. split; [done|]. intros Hpayloads.
  assert (length (payloads (changeEncodingContents page)) ≠ 0%nat) as Hlength.
  { by destruct (payloads (changeEncodingContents page)). }
  assert (ActionRemoveIndicatorCell.disabled page = Throw thrown) as Hdisabled.
  { unfold ActionRemoveIndicatorCell.disabled,
      ActionRemoveIndicatorCell.caretSymbolIndicatorPosition.
    by rewrite bool_decide_true, Hoff by done. }
  assert (ActionPostModifierCell.disabled page = false) as Henabled.
  { unfold ActionPostModifierCell.disabled. by rewrite bool_decide_false. }
  split; [done|]. split; [|split; [done|]].
  - unfold ActionPostModifierCell.click. by rewrite Henabled.
  - unfold ActionRemoveIndicatorCell.click. by rewrite Hdisabled.
Qed.

Lemma caret_off_payloads_throws_witness :
  ActionPostModifierCell.disabled (Sample.document (-1)) = false
  /\ ActionPostModifierCell.click Sample.pluralProps (Sample.document (-1))
       = Throw (TypeError (ReadOfUndefined "bciAvId"))
  /\ @ActionRemoveIndicatorCell.cellClicked Sample.svgUtils Sample.removeProps
       (Sample.document 2) = Throw (TypeError (ReadOfUndefined "bciAvId")).
Proof.
  destruct (@caret_off_payloads_throws Sample.svgUtils Sample.removeProps
              (Sample.document 2) eq_refl) as (Hremove & _).
  destruct (@caret_off_payloads_throws Sample.svgUtils Sample.pluralProps
              (Sample.document (-1)) eq_refl) as (_ & _ & Hguard).
  destruct (Hguard ltac:(discriminate)) as (Henabled & Hclick & _).
  exact (conj Henabled (conj Hclick Hremove)).
Defined.

Lemma index_Some_nat {A} (a : list A) (i : Z) (x : A) :
  index a i = Some x -> exists c : nat, i = Z.of_nat c /\ a !! c = Some x.
Proof.
  unfold index. destruct (Z.ltb_spec i 0) as [?|Hi]; [done|].
  intros Hx. exists (Z.to_nat i). split; [lia|done].
Qed.

(** What a completed append did, in full. *)
Lemma post_modifier_done props page page' :
  ActionPostModifierCell.cellClicked props page = Normal page' ->
  exists (c : nat) old m,
    caretPosition (changeEncodingContents page) = Z.of_nat c
    /\ payloads (changeEncodingContents page) !! c = Some old
    /\ arrays page !! modifierInfo old = Some m
    /\ page' =
         {| changeEncodingContents :=
              {| payloads :=
                   <[c := {| id := id old +:+ props_id props;
                             label := options_label props +:+ " " +:+ label old;
                             bciAvId :=
                               Composite (asArray (bciAvId old) ++ [TStr "/"] ++
                                          asArray (options_bciAvId props));
                             modifierInfo := modifierInfo old |}]>
                     (payloads (changeEncodingContents page));
                 caretPosition := Z.of_nat c |};
            arrays :=
              <[modifierInfo old :=
                  m ++ [{| modifierId := asArray (options_bciAvId props);
                           modifierGloss := options_label props;
                           isPrepended := false |}]]> (arrays page);
            spoken := spoken page ++ [options_label props +:+ " " +:+ label old] |}.
Proof.
  intros Hdone.
  destruct (post_modifier_completed _ _ _ Hdone) as (old & m & Hold & Harray).
  apply index_Some_nat in Hold as (c & Hcaret & Hold).
  rewrite (post_modifier_step props page c old m Hcaret Hold Harray) in Hdone.
  injection Hdone as <-. by exists c, old, m.
Qed.

(** What a completed removal did, in full. *)
Lemma remove_indicator_done `{!SvgUtils} props page page' :
  ActionRemoveIndicatorCell.cellClicked props page = Normal page' ->
  exists (c : nat) old tokens written,
    caretPosition (changeEncodingContents page) = Z.of_nat c
    /\ payloads (changeEncodingContents page) !! c = Some old
    /\ bciAvId old = Composite tokens
    /\ page' =
         {| changeEncodingContents :=
              {| payloads :=
                   <[c := {| id := id old +:+ props_id props;
                             label := label old;
                             bciAvId := Composite written;
                             modifierInfo := modifierInfo old |}]>
                     (payloads (changeEncodingContents page));
                 caretPosition := Z.of_nat c |};
            arrays := arrays page;
            spoken := spoken page ++ [label old] |}.
Proof.
  intros Hdone.
  destruct (remove_indicator_completed _ _ _ Hdone) as (old & tokens & Hold & Htokens).
  apply index_Some_nat in Hold as (c & Hcaret & Hold).
  rewrite (remove_indicator_step props page c old tokens Hcaret Hold Htokens) in Hdone.
  injection Hdone as <-. by eexists c, old, tokens, _.
Qed.

(** X4.  The remove-indicator handler cannot edit a symbol whose [bciAvId]
    is a single number: a number has no [slice], and the handler throws a
    TypeError, whatever [findIndicators] reports (the append-modifier handler
    wraps such a number in an array first).  The button only protects from
    this when [findIndicators] reports no indicator for the number: then a
    click does nothing; otherwise the click throws. *)
Theorem remove_indicator_on_single_number `{!SvgUtils} props page (c : nat) symbol n :
  caretPosition (changeEncodingContents page) = Z.of_nat c ->
  payloads (changeEncodingContents page) !! c = Some symbol ->
  bciAvId symbol = Single n ->
  ActionRemoveIndicatorCell.cellClicked props page =
    Throw (TypeError (NotAFunction "slice"))
  /\ (findIndicators (Single n) = [] ->
      ActionRemoveIndicatorCell.click props page = Normal page)
  /\ (forall i others,
        findIndicators (Single n) = i :: others -> i ≠ -1 ->
        ActionRemoveIndicatorCell.click props page =
          Throw (TypeError (NotAFunction "slice"))).
Proof.
  intros Hcaret Hc Hsingle.
  assert (ActionRemoveIndicatorCell.cellClicked props page =
            Throw (TypeError (NotAFunction "slice"))) as Hthrows.
  { unfold ActionRemoveIndicatorCell.cellClicked.
    rewrite (indicator_position_on_payload _ _ _ Hcaret Hc), bind_Normal.
    by rewrite (caret_on_payload _ _ _ Hcaret Hc), Hsingle. }
  split; [done|].
  unfold ActionRemoveIndicatorCell.click, ActionRemoveIndicatorCell.disabled.
  rewrite (indicator_position_on_payload _ _ _ Hcaret Hc), Hsingle. split.
  - by intros ->.
  - intros i others -> Hi. rewrite !bind_Normal. by rewrite bool_decide_false.
Qed.

Lemma remove_indicator_on_single_number_witness :
  @ActionRemoveIndicatorCell.click Sample.svgUtils Sample.removeProps
     (MoreSamples.single MoreSamples.loneIndicator)
    = Throw (TypeError (NotAFunction "slice"))
  /\ @ActionRemoveIndicatorCell.click Sample.svgUtils Sample.removeProps
       (Sample.document 0) = Normal (Sample.document 0).
Proof.
  destruct (@remove_indicator_on_single_number Sample.svgUtils Sample.removeProps
              (MoreSamples.single MoreSamples.loneIndicator) 0%nat
              MoreSamples.loneIndicator 8993 eq_refl eq_refl eq_refl)
    as (_ & _ & Hclick).
  destruct (@remove_indicator_on_single_number Sample.svgUtils Sample.removeProps
              (Sample.document 0) 0%nat
              (MoreSamples.symbol "a" "CAT" (Single 14905) 0) 14905
              eq_refl eq_refl eq_refl)
    as (_ & Hnoop & _).
  split; [exact (Hclick 0 [] eq_refl ltac:(discriminate)) | exact (Hnoop eq_refl)].
Defined.

(** X5.  An edit that completes asks [speak] for exactly one thing more,
    after all that was said before: the label of the symbol it has just
    written at the caret. *)
Theorem edit_speaks_the_label_written `{!SvgUtils} props page page' :
  ActionPostModifierCell.cellClicked props page = Normal page'
    \/ ActionRemoveIndicatorCell.cellClicked props page = Normal page' ->
  exists written,
    index (payloads (changeEncodingContents page'))
          (caretPosition (changeEncodingContents page')) = Some written
    /\ spoken page' = spoken page ++ [label written].
Proof.
  intros [Hdone|Hdone].
  - destruct (post_modifier_done _ _ _ Hdone) as (c & old & m & _ & Hold & _ & ->).
    eexists. simpl. rewrite index_of_nat.
    split; [apply list_lookup_insert_eq; by eapply lookup_lt_Some | reflexivity].
  - destruct (remove_indicator_done _ _ _ Hdone)
      as (c & old & tokens & written & _ & Hold & _ & ->).
    eexists. simpl. rewrite index_of_nat.
    split; [apply list_lookup_insert_eq; by eapply lookup_lt_Some | reflexivity].
Qed.

Lemma edit_speaks_the_label_written_witness :
  exists page' written,
    ActionPostModifierCell.cellClicked Sample.pluralProps Sample.page = Normal page'
    /\ index (payloads (changeEncodingContents page'))
             (caretPosition (changeEncodingContents page')) = Some written
    /\ spoken page' = spoken Sample.page ++ [label written].
Proof.
  eexists.
  destruct (@edit_speaks_the_label_written Sample.svgUtils Sample.pluralProps
              Sample.page _ (or_introl eq_refl)) as (written & Hwritten & Hspoken).
  exists written. split; [reflexivity|]. split; [exact Hwritten | exact Hspoken].
Defined.

(** X6.  Removing an indicator records nothing: a removal that completes
    leaves every [modifierInfo] array as it was, the array of the edited
    symbol included, and keeps the symbol's label; only the tokens and the
    id of the symbol change. *)
Theorem removal_leaves_modifier_history `{!SvgUtils} props page page' :
  ActionRemoveIndicatorCell.cellClicked props page = Normal page' ->
  arrays page' = arrays page
  /\ exists old written,
       index (payloads (changeEncodingContents page))
             (caretPosition (changeEncodingContents page)) = Some old
       /\ index (payloads (changeEncodingContents page'))
                (caretPosition (changeEncodingContents page')) = Some written
       /\ label written = label old
       /\ modifierInfo written = modifierInfo old
       /\ arrays page' !! modifierInfo written = arrays page !! modifierInfo old.
Proof.
  intros Hdone.
  destruct (remove_indicator_done _ _ _ Hdone)
    as (c & old & tokens & written & Hcaret & Hold & _ & ->).
  split; [done|]. exists old. eexists. rewrite Hcaret. simpl.
  rewrite !index_of_nat. split; [done|].
  split; [apply list_lookup_insert_eq; by eapply lookup_lt_Some | done].
Qed.

Lemma removal_leaves_modifier_history_witness :
  exists page',
    @ActionRemoveIndicatorCell.cellClicked Sample.svgUtils Sample.removeProps Sample.page
      = Normal page'
    /\ arrays page' = arrays Sample.page.
Proof.
  eexists. split; [reflexivity|].
  exact (proj1 (@removal_leaves_modifier_history Sample.svgUtils Sample.removeProps
                  Sample.page _ eq_refl)).
Defined.

(** X7.  Two modifiers appended one after the other: the tokens grow to
    the right in the order of the clicks ([t / mt1 / mt2]), the label grows
    to the left (second gloss, first gloss, old label), the ids of the two
    cells are appended to the symbol's id in click order, the
    [modifierInfo] array gains the two records in click order, and the two
    labels are spoken in turn. *)
Theorem two_modifiers_compose props1 props2 page (c : nat) symbol
    (m : list ModifierInfoType) :
  caretPosition (changeEncodingContents page) = Z.of_nat c ->
  payloads (changeEncodingContents page) !! c = Some symbol ->
  arrays page !! modifierInfo symbol = Some m ->
  let record props := {| modifierId := asArray (options_bciAvId props);
                         modifierGloss := options_label props;
                         isPrepended := false |} in
  let label1 := options_label props1 +:+ " " +:+ label symbol in
  let label2 := options_label props2 +:+ " " +:+ label1 in
  exists page1 page2,
    ActionPostModifierCell.cellClicked props1 page = Normal page1
    /\ ActionPostModifierCell.cellClicked props2 page1 = Normal page2
    /\ payloads (changeEncodingContents page2) !! c =
         Some {| id := (id symbol +:+ props_id props1) +:+ props_id props2;
                 label := label2;
                 bciAvId :=
                   Composite ((asArray (bciAvId symbol) ++ [TStr "/"] ++
                               asArray (options_bciAvId props1)) ++ [TStr "/"] ++
                              asArray (options_bciAvId props2));
                 modifierInfo := modifierInfo symbol |}
    /\ arrays page2 !! modifierInfo symbol = Some (m ++ [record props1; record props2])
    /\ spoken page2 = spoken page ++ [label1; label2].
Proof.
  intros Hcaret Hc Harray record label1 label2.
  pose proof (post_modifier_step props1 page c symbol m Hcaret Hc Harray) as Hstep1.
  eexists _, _. split; [exact Hstep1|].
  match type of Hstep1 with _ = Normal ?p1 => set (page1 := p1) end.
  assert (payloads (changeEncodingContents page1) !! c =
            Some {| id := id symbol +:+ props_id props1;
                    label := label1;
                    bciAvId := Composite (asArray (bciAvId symbol) ++ [TStr "/"] ++
                                          asArray (options_bciAvId props1));
                    modifierInfo := modifierInfo symbol |}) as Hc1.
  { simpl. apply list_lookup_insert_eq. by eapply lookup_lt_Some. }
  pose proof (post_modifier_step props2 page1 c _ (m ++ [record props1])
                eq_refl Hc1 (lookup_insert_eq _ _ _)) as Hstep2.
  split; [exact Hstep2|]. simpl. split; [|split].
  - apply list_lookup_insert_eq. rewrite length_insert. by eapply lookup_lt_Some.
  - rewrite lookup_insert_eq. by rewrite <- app_assoc.
  - by rewrite <- app_assoc.
Qed.

Lemma two_modifiers_compose_witness :
  exists page1 page2,
    ActionPostModifierCell.cellClicked Sample.pluralProps (Sample.document 0)
      = Normal page1
    /\ ActionPostModifierCell.cellClicked MoreSamples.pastProps page1 = Normal page2
    /\ payloads (changeEncodingContents page2) !! 0%nat =
         Some {| id := "a-pl-past"; label := "PAST PLURAL CAT";
                 bciAvId := Composite [TNum 14905; TStr "/"; TNum 9011; TStr "/";
                                       TNum 8999; TStr ";"; TNum 9004];
                 modifierInfo := 0%nat |}
    /\ spoken page2 = ["PLURAL CAT"; "PAST PLURAL CAT"].
Proof.
  destruct (two_modifiers_compose Sample.pluralProps MoreSamples.pastProps
              (Sample.document 0) 0%nat
              (MoreSamples.symbol "a" "CAT" (Single 14905) 0) []
              eq_refl eq_refl eq_refl)
    as (page1 & page2 & Hfirst & Hsecond & Hslot & _ & Hspoken).
  exists page1, page2.
  split; [exact Hfirst|]. split; [exact Hsecond|].
  split; [exact Hslot | exact Hspoken].
Defined.

Lemma cut_pair_before_suffix {A} (t suffix : list A) (i : nat) :
  (i < length t)%nat ->
  take (i - 1) (t ++ suffix) ++ drop (i + 1) (t ++ suffix) =
    (take (i - 1) t ++ drop (i + 1) t) ++ suffix.
Proof.
  intros Hi. rewrite take_app_le, drop_app_le by lia. by rewrite app_assoc.
Qed.

(** X8.  Appending a modifier and then removing an indicator that lies in
    the symbol's own tokens comes to removing the indicator first and then
    appending: when the first indicator reported for the new tokens is at an
    index [i >= 1] inside the old tokens [t], the tokens end as
    [t] without [t[i-1]] and [t[i]], then ["/"], then the modifier's tokens.
    The record of the modifier stays in the [modifierInfo] array. *)
Theorem append_then_remove_indicator `{!SvgUtils} modifier remover page (c : nat)
    symbol (m : list ModifierInfoType) (i : Z) others :
  caretPosition (changeEncodingContents page) = Z.of_nat c ->
  payloads (changeEncodingContents page) !! c = Some symbol ->
  arrays page !! modifierInfo symbol = Some m ->
  let t := asArray (bciAvId symbol) in
  let mt := asArray (options_bciAvId modifier) in
  findIndicators (Composite (t ++ [TStr "/"] ++ mt)) = i :: others ->
  1 <= i < Z.of_nat (length t) ->
  exists page1 page2,
    ActionPostModifierCell.cellClicked modifier page = Normal page1
    /\ ActionRemoveIndicatorCell.cellClicked remover page1 = Normal page2
    /\ payloads (changeEncodingContents page2) !! c =
         Some {| id := (id symbol +:+ props_id modifier) +:+ props_id remover;
                 label := options_label modifier +:+ " " +:+ label symbol;
                 bciAvId :=
                   Composite ((take (Z.to_nat i - 1) t ++ drop (Z.to_nat i + 1) t) ++
                              [TStr "/"] ++ mt);
                 modifierInfo := modifierInfo symbol |}
    /\ arrays page2 !! modifierInfo symbol =
         Some (m ++ [{| modifierId := mt;
                        modifierGloss := options_label modifier;
                        isPrepended := false |}]).
Proof.
  intros Hcaret Hc Harray t mt Hfirst Hi.
  pose proof (post_modifier_step modifier page c symbol m Hcaret Hc Harray) as Hstep1.
  eexists _, _. split; [exact Hstep1|].
  match type of Hstep1 with _ = Normal ?p1 => set (page1 := p1) end.
  assert (payloads (changeEncodingContents page1) !! c =
            Some {| id := id symbol +:+ props_id modifier;
                    label := options_label modifier +:+ " " +:+ label symbol;
                    bciAvId := Composite (t ++ [TStr "/"] ++ mt);
                    modifierInfo := modifierInfo symbol |}) as Hc1.
  { simpl. apply list_lookup_insert_eq. by eapply lookup_lt_Some. }
  pose proof (remove_indicator_step remover page1 c _ (t ++ [TStr "/"] ++ mt)
                eq_refl Hc1 eq_refl) as Hstep2.
  rewrite Hfirst in Hstep2. cbv zeta in Hstep2.
  rewrite slice_prefix, slice_suffix in Hstep2 by lia.
  replace (Z.to_nat (i - 1)) with (Z.to_nat i - 1)%nat in Hstep2 by lia.
  replace (Z.to_nat (i + 1)) with (Z.to_nat i + 1)%nat in Hstep2 by lia.
  rewrite cut_pair_before_suffix in Hstep2 by lia.
  split; [exact Hstep2|]. simpl. split.
  - apply list_lookup_insert_eq. rewrite length_insert. by eapply lookup_lt_Some.
  - apply lookup_insert_eq.
Qed.

Lemma append_then_remove_indicator_witness :
  exists page1 page2,
    ActionPostModifierCell.cellClicked Sample.pluralProps Sample.page = Normal page1
    /\ @ActionRemoveIndicatorCell.cellClicked Sample.svgUtils Sample.removeProps page1
         = Normal page2
    /\ payloads (changeEncodingContents page2) !! 1%nat =
         Some {| id := "b-pl-rm"; label := "PLURAL VERB";
                 bciAvId := Composite [TNum 12335; TStr "/"; TNum 8499;
                                       TStr "/"; TNum 9011];
                 modifierInfo := 1%nat |}.
Proof.
  destruct (@append_then_remove_indicator Sample.svgUtils Sample.pluralProps
              Sample.removeProps Sample.page 1%nat
              (MoreSamples.symbol "b" "VERB"
                 (Composite [TNum 12335; TStr ";"; TNum 8993; TStr "/"; TNum 8499]) 1)
              [] 2 [] eq_refl eq_refl eq_refl eq_refl ltac:(simpl; lia))
    as (page1 & page2 & Hfirst & Hsecond & Hslot & _).
  exists page1, page2. split; [exact Hfirst|]. split; [exact Hsecond | exact Hslot].
Defined.

End ClientExtras.

(** ** Sessions *)

Module SessionExtras.
Import Js JsFacts Client ClientFacts ClientExtras Session.

Implicit Types (page : Page) (props : PropsType) (cell : Cell) (cells : list Cell).

(** What a click that completed can have done. *)
Lemma press_done `{!SvgUtils} cell page page' :
  press cell page = Normal page' ->
  page' = page
  \/ (exists props, ActionPostModifierCell.cellClicked props page = Normal page')
  \/ (exists props, ActionRemoveIndicatorCell.cellClicked props page = Normal page')
  \/ (exists props, isClear cell = true
                    /\ page' = CommandClearEncoding.cellClicked props page).
Proof.
  destruct cell as [props|props|props]; simpl.
  - unfold ActionPostModifierCell.click.
    destruct (ActionPostModifierCell.disabled page); [intros [= <-]; by left|].
    intros Hdone. right. left. by exists props.
  - unfold ActionRemoveIndicatorCell.click. intros Hdone.
    apply bind_returns in Hdone as ([] & _ & Hdone).
    + injection Hdone as <-. by left.
    + right. right. left. by exists props.
  - intros [= <-]. right. right. right. by exists props.
Qed.

(** On a document with no payload the two editing cells do nothing. *)
Lemma press_on_empty `{!SvgUtils} cell page :
  payloads (changeEncodingContents page) = [] ->
  isClear cell = false ->
  press cell page = Normal page.
Proof.
  intros Hempty Hcell. destruct cell as [props|props|props]; [| |done]; simpl.
  - unfold ActionPostModifierCell.click, ActionPostModifierCell.disabled.
    by rewrite Hempty.
  - unfold ActionRemoveIndicatorCell.click, ActionRemoveIndicatorCell.disabled.
    by rewrite (indicator_position_empty page Hempty).
Qed.

(** X9.  No sequence of clicks on append-modifier, remove-indicator and
    clear cells makes two slots of the document share a [modifierInfo]
    array: if no two slots share one before, none do after, as far as the
    clicks complete. *)
Theorem session_keeps_arrays_distinct `{!SvgUtils} cells page page' :
  distinctArrays page ->
  pressAll cells page = Normal page' ->
  distinctArrays page'.
Proof.
  revert page. induction cells as [|cell cells IH]; intros page Hdistinct Hrun.
  - by injection Hrun as <-.
  - cbn [pressAll] in Hrun. apply bind_returns in Hrun as (page1 & Hpress & Hrun).
    apply (IH page1); [|done].
    destruct (press_done _ _ _ Hpress)
      as [->|[[props Hdone]|[[props Hdone]|(props & _ & ->)]]]; [done| | |].
    + eapply ClientClaims.edits_keep_arrays_distinct; [done|by left].
    + eapply ClientClaims.edits_keep_arrays_distinct; [done|by right].
    + apply ClientClaims.cleared_arrays_distinct.
Qed.

Lemma sample_arrays_distinct : distinctArrays Sample.page.
Proof.
  intros i j si sj Hij Hi Hj.
  destruct i as [|[|i]], j as [|[|j]]; simpl in *; try done;
    repeat match goal with H : Some _ = Some _ |- _ => injection H as <- end; done.
Qed.

Lemma session_keeps_arrays_distinct_witness :
  exists page',
    @pressAll Sample.svgUtils
       [PostModifier Sample.pluralProps; RemoveIndicator Sample.removeProps;
        PostModifier MoreSamples.pastProps] Sample.page = Normal page'
    /\ distinctArrays page'.
Proof.
  eexists. split; [reflexivity|].
  exact (@session_keeps_arrays_distinct Sample.svgUtils
           [PostModifier Sample.pluralProps; RemoveIndicator Sample.removeProps;
            PostModifier MoreSamples.pastProps] Sample.page _
           sample_arrays_distinct eq_refl).
Defined.

(** X10.  Once the clear command has been pressed, the append-modifier and
    remove-indicator cells are dead: any sequence of clicks on them returns
    the cleared page as it is, with nothing written, spoken or thrown. *)
Theorem cleared_page_ignores_edits `{!SvgUtils} props cells page :
  forallb (fun cell => negb (isClear cell)) cells = true ->
  pressAll cells (CommandClearEncoding.cellClicked props page) =
    Normal (CommandClearEncoding.cellClicked props page).
Proof.
  induction cells as [|cell cells IH]; [done|]. cbn [forallb pressAll].
  intros [Hcell Hcells]%andb_true_iff.
  rewrite press_on_empty, bind_Normal; [by apply IH|done|].
  by destruct (isClear cell).
Qed.

Lemma cleared_page_ignores_edits_witness :
  @pressAll Sample.svgUtils
     [PostModifier Sample.pluralProps; RemoveIndicator Sample.removeProps]
     Sample.emptyPage = Normal Sample.emptyPage.
Proof.
  exact (@cleared_page_ignores_edits Sample.svgUtils _
           [PostModifier Sample.pluralProps; RemoveIndicator Sample.removeProps]
           Sample.page eq_refl).
Defined.

(** One click: the shape of the document, the arrays there are, and what
    was spoken. *)
Lemma press_frame `{!SvgUtils} cell page page' :
  press cell page = Normal page' ->
  (if isClear cell
   then payloads (changeEncodingContents page') = []
        /\ caretPosition (changeEncodingContents page') = -1
   else length (payloads (changeEncodingContents page')) =
          length (payloads (changeEncodingContents page))
        /\ caretPosition (changeEncodingContents page') =
             caretPosition (changeEncodingContents page))
  /\ dom (arrays page') = dom (arrays page)
  /\ spoken page `prefix_of` spoken page'.
Proof.
  destruct cell as [props|props|props]; simpl.
  - unfold ActionPostModifierCell.click.
    destruct (ActionPostModifierCell.disabled page); [by intros [= <-]|].
    intros Hdone.
    destruct (post_modifier_done _ _ _ Hdone) as (c & old & m & Hcaret & _ & Harray & ->).
    simpl. rewrite length_insert, dom_insert_lookup_L by done.
    split; [done|]. split; [done|by apply prefix_app_r].
  - unfold ActionRemoveIndicatorCell.click. intros Hdone.
    apply bind_returns in Hdone as ([] & _ & Hdone); [by injection Hdone as <-|].
    destruct (remove_indicator_done _ _ _ Hdone)
      as (c & old & tokens & written & Hcaret & _ & _ & ->).
    simpl. rewrite length_insert.
    split; [done|]. split; [done|by apply prefix_app_r].
  - intros [= <-]. simpl. split; [done|]. split; [done|by apply prefix_app_r].
Qed.

(** X11.  Whatever is clicked among these cells, the document never gains
    or loses a symbol and the caret never moves, short of a clear: a
    sequence of clicks that completes without a clear in it leaves the
    number of payloads and the caret as they were, and one with a clear in
    it ends with no payload and the caret at -1.  No [modifierInfo] array is
    created or dropped, and what was spoken before is still the beginning of
    what has been spoken. *)
Theorem session_keeps_document_shape `{!SvgUtils} cells page page' :
  pressAll cells page = Normal page' ->
  (if existsb isClear cells
   then payloads (changeEncodingContents page') = []
        /\ caretPosition (changeEncodingContents page') = -1
   else length (payloads (changeEncodingContents page')) =
          length (payloads (changeEncodingContents page))
        /\ caretPosition (changeEncodingContents page') =
             caretPosition (changeEncodingContents page))
  /\ dom (arrays page') = dom (arrays page)
  /\ spoken page `prefix_of` spoken page'.
Proof.
  revert page. induction cells as [|cell cells IH]; intros page Hrun.
  - by injection Hrun as <-.
  - cbn [pressAll] in Hrun. apply bind_returns in Hrun as (page1 & Hpress & Hrun).
    destruct (press_frame _ _ _ Hpress) as (Hshape1 & Hdom1 & Hspoken1).
    destruct (IH _ Hrun) as (Hshape & Hdom & Hspoken).
    split; [|split; [congruence|by etrans]].
    cbn [existsb]. destruct (isClear cell); simpl.
    + destruct Hshape1 as [Hempty Hcaret].
      destruct (existsb isClear cells); [done|].
      destruct Hshape as [Hlength Hsame]. rewrite Hempty in Hlength.
      split; [by apply nil_length_inv|congruence].
    + destruct (existsb isClear cells); [done|].
      destruct Hshape1 as [Hlength1 Hcaret1], Hshape as [Hlength Hcaret].
      split; congruence.
Qed.

Lemma session_keeps_document_shape_witness :
  exists page',
    @pressAll Sample.svgUtils
       [PostModifier Sample.pluralProps; RemoveIndicator Sample.removeProps;
        PostModifier MoreSamples.pastProps] Sample.page = Normal page'
    /\ length (payloads (changeEncodingContents page')) = 2%nat
    /\ caretPosition (changeEncodingContents page') = 1
    /\ dom (arrays page') = dom (arrays Sample.page).
Proof.
  eexists. split; [reflexivity|].
  destruct (@session_keeps_document_shape Sample.svgUtils
              [PostModifier Sample.pluralProps; RemoveIndicator Sample.removeProps;
               PostModifier MoreSamples.pastProps] Sample.page _ eq_refl)
    as ((Hlength & Hcaret) & Hdom & _).
  exact (conj Hlength (conj Hcaret Hdom)).
Defined.

End SessionExtras.

(** ** The batch palette builder: the palette, successes, and failures *)

Module GeneratorExtras.
Import Js JsFacts RegExpFacts PaletteGenerator GeneratorFacts PaletteFetch.
Import Client (Token, TNum, TStr).

Lemma assign_fresh {V} (obj : list (string * V)) (key : string) (value : V) :
  key ∉ obj.*1 -> assign obj key value = obj ++ [(key, value)].
Proof.
  induction obj as [|[k v] obj IH]; [done|]. simpl.
  intros [Hne Hfresh]%not_elem_of_cons.
  rewrite bool_decide_false by done. by rewrite IH.
Qed.

Lemma assign_elem_of {V} (obj : list (string * V)) (key : string) (value : V) kv :
  kv ∈ assign obj key value -> kv ∈ obj \/ kv = (key, value).
Proof.
  induction obj as [|[k v] obj IH]; simpl.
  - intros ->%list_elem_of_singleton. by right.
  - destruct (bool_decide_reflect (k = key)) as [->|Hne].
    + intros [->|Hin]%elem_of_cons; [by right|]. left. by apply list_elem_of_further.
    + intros [->|Hin]%elem_of_cons; [left; apply list_elem_of_here|].
      destruct (IH Hin) as [?|?]; [left; by apply list_elem_of_further|by right].
Qed.

Section Builder.
Context `{!Engine} `{!Uuid}.

Implicit Types (bliss : option (list GlossEntry)) (glosses : list GlossEntry) (b : Build).

(** The [try] block leaves the kind and the place of the cell alone, and
    always stores some [bciAvId]. *)
Lemma tryBlock_cell (l : string) bliss (cell : Cell) (recorded : list (string * list Match)) :
  let cell' := (tryBlock l bliss cell recorded).1.1 in
  cell_type cell' = cell_type cell
  /\ rowStart (options cell') = rowStart (options cell)
  /\ rowSpan (options cell') = rowSpan (options cell)
  /\ columnStart (options cell') = columnStart (options cell)
  /\ columnSpan (options cell') = columnSpan (options cell)
  /\ bciAvId (options cell') ≠ Undefined.
Proof.
  unfold tryBlock. destruct (negb (isNaN (parseInt l))).
  - by destruct (findByBciAvId l bliss).
  - destruct (findBciAvId l bliss) as [[[|first others]|]|]; done.
Qed.

(** What the callback stores for a cell that is not blank. *)
Lemma forLabel_emits start_row start_column (i j : nat) (l : string) b :
  l ≠ BLANK_CELL_LABEL ->
  exists b' cell,
    forLabel start_row start_column i j l b = Normal b'
    /\ cells b' = assign (cells b) (l +:+ "-" +:+ uuidv4 (uuidCalls (globals b))) cell
    /\ uuidCalls (globals b') = S (uuidCalls (globals b))
    /\ cell_type cell = type
    /\ rowStart (options cell) = start_row + Z.of_nat i
    /\ rowSpan (options cell) = 1
    /\ columnStart (options cell) = start_column + Z.of_nat j
    /\ columnSpan (options cell) = 1
    /\ bciAvId (options cell) ≠ Undefined.
Proof.
  intros Hlabel. unfold forLabel. rewrite bool_decide_false by done.
  match goal with |- context [tryBlock l ?bl ?c ?r] =>
    pose proof (tryBlock_cell l bl c r) as Hcell;
    destruct (tryBlock l bl c r) as [[cell recorded] [[]|e]]
  end; simpl in *; destruct Hcell as (? & ? & ? & ? & ? & ?).
  - by eexists _, _.
  - by eexists _, _.
Qed.

(** The loop over a list of cells: where the properties of the palette come
    from. *)
Lemma forCells_origin start_row start_column (cs : list (nat * nat * string)) b b' :
  forCells start_row start_column cs b = Normal b' ->
  forall key cell,
    (key, cell) ∈ cells b' ->
    (key, cell) ∈ cells b
    \/ exists (i j : nat) (l : string) (n : nat),
         (i, j, l) ∈ cs
         /\ l ≠ BLANK_CELL_LABEL
         /\ key = l +:+ "-" +:+ uuidv4 n
         /\ cell_type cell = type
         /\ rowStart (options cell) = start_row + Z.of_nat i
         /\ rowSpan (options cell) = 1
         /\ columnStart (options cell) = start_column + Z.of_nat j
         /\ columnSpan (options cell) = 1
         /\ bciAvId (options cell) ≠ Undefined.
Proof.
  revert b. induction cs as [|[[i j] l] cs IH]; intros b Hrun key cell Hin.
  - injection Hrun as <-. by left.
  - cbn [forCells] in Hrun. apply bind_returns in Hrun as (b1 & Hstep & Hrun).
    destruct (IH _ Hrun _ _ Hin) as [Hb1|(i' & j' & l' & n & Hcs & Hrest)].
    + destruct (decide (l = BLANK_CELL_LABEL)) as [->|Hlabel].
      * rewrite forLabel_blank in Hstep. injection Hstep as <-. by left.
      * destruct (forLabel_emits start_row start_column i j l b Hlabel)
          as (b1' & stored & Hstep' & Hcells & _ & Hshape).
        rewrite Hstep in Hstep'. injection Hstep' as <-.
        rewrite Hcells in Hb1. apply assign_elem_of in Hb1 as [?|[= -> ->]]; [by left|].
        right. exists i, j, l, (uuidCalls (globals b)).
        split; [apply list_elem_of_here|]. by split.
    + right. exists i', j', l', n. split; [by apply list_elem_of_further|done].
Qed.

(** The keys of the palette after the loop, when no key comes twice. *)
Lemma forCells_keys start_row start_column (cs : list (nat * nat * string)) b b' :
  forCells start_row start_column cs b = Normal b' ->
  NoDup ((cells b).*1 ++ keysFrom (uuidCalls (globals b)) cs) ->
  (cells b').*1 = (cells b).*1 ++ keysFrom (uuidCalls (globals b)) cs.
Proof.
  revert b. induction cs as [|[[i j] l] cs IH]; intros b Hrun Hkeys.
  - injection Hrun as <-. simpl. by rewrite app_nil_r.
  - cbn [forCells keysFrom] in *. apply bind_returns in Hrun as (b1 & Hstep & Hrun).
    destruct (bool_decide_reflect (l = BLANK_CELL_LABEL)) as [->|Hlabel].
    + rewrite forLabel_blank in Hstep. injection Hstep as <-. by apply IH.
    + destruct (forLabel_emits start_row start_column i j l b Hlabel)
        as (b1' & stored & Hstep' & Hcells & Huuid & _).
      rewrite Hstep in Hstep'. injection Hstep' as <-.
      assert ((l +:+ "-" +:+ uuidv4 (uuidCalls (globals b))) ∉ (cells b).*1) as Hfresh.
      { apply NoDup_app in Hkeys as (_ & Hdisjoint & _).
        intros Hin. apply (Hdisjoint _ Hin). apply list_elem_of_here. }
      rewrite (assign_fresh _ _ _ Hfresh) in Hcells.
      rewrite (IH b1 Hrun); rewrite Hcells, Huuid, fmap_app; simpl.
      * by rewrite <- app_assoc.
      * by rewrite <- app_assoc.
Qed.

Lemma rowCells_elem_of (i j0 i' j : nat) (row : list string) (l : string) :
  (i', j, l) ∈ rowCells i j0 row ->
  i' = i /\ exists k : nat, j = (j0 + k)%nat /\ row !! k = Some l.
Proof.
  revert j0. induction row as [|l0 row IH]; intros j0; simpl.
  - by intros ?%not_elem_of_nil.
  - intros [[= -> -> ->]|Hin]%elem_of_cons.
    + split; [done|]. exists 0%nat. split; [lia|done].
    + destruct (IH _ Hin) as (-> & k & -> & Hk). split; [done|].
      exists (S k). split; [lia|done].
Qed.

Lemma layoutCells_elem_of (i0 i j : nat) (palette_labels : list (list string)) (l : string) :
  (i, j, l) ∈ layoutCells i0 palette_labels ->
  exists (k : nat) row,
    i = (i0 + k)%nat /\ palette_labels !! k = Some row /\ row !! j = Some l.
Proof.
  revert i0. induction palette_labels as [|row rows IH]; intros i0; simpl.
  - by intros ?%not_elem_of_nil.
  - intros [Hin|Hin]%elem_of_app.
    + apply rowCells_elem_of in Hin as (-> & k & -> & Hk).
      exists 0%nat, row. split; [lia|done].
    + destruct (IH _ Hin) as (k & row' & -> & Hrow & Hl).
      exists (S k), row'. split; [lia|done].
Qed.

End Builder.

(** X12.  When the keys a call assigns are distinct, the returned palette
    has exactly one property per label of the layout that is not ["BLANK"],
    none for a blank, in the order of the layout (row by row, left to
    right): its keys are the label, a dash and the identifier drawn for the
    cell.  In any case it has no more properties than there are such
    labels. *)
Theorem palette_has_one_cell_per_label `{!Engine} `{!Uuid}
    (palette_labels : list (list string)) (start_row start_column : Z)
    (g : Globals) r g' :
  processPaletteLabels palette_labels start_row start_column g = Normal (r, g') ->
  (NoDup (assignedKeys g palette_labels) ->
   (palette_cells (paletteJson r)).*1 = assignedKeys g palette_labels
   /\ length (palette_cells (paletteJson r)) = length (labelled palette_labels))
  /\ (forall key cell,
        (key, cell) ∈ palette_cells (paletteJson r) ->
        key ∈ assignedKeys g palette_labels).
Proof.
  unfold processPaletteLabels. rewrite forRows_forCells. intros Hcall.
  apply bind_returns in Hcall as (b' & Hrun & [= <- <-]). simpl.
  destruct (forCells_returns start_row start_column (layoutCells 0 palette_labels)
              {| cells := []; matchByLabel := [];
                 globals := {| bliss_gloss := bliss_gloss g; errors := [];
                               uuidCalls := uuidCalls g |} |})
    as (b'' & Hrun' & _ & Huuid & _).
  rewrite Hrun in Hrun'. injection Hrun' as <-.
  destruct (forRows_returns start_row start_column 0 palette_labels
              {| cells := []; matchByLabel := [];
                 globals := {| bliss_gloss := bliss_gloss g; errors := [];
                               uuidCalls := uuidCalls g |} |})
    as (b'' & Hrows & _ & _ & Hcount).
  rewrite forRows_forCells, Hrun in Hrows. injection Hrows as <-.
  simpl in Huuid, Hcount. split.
  - intros Hkeys.
    pose proof (forCells_keys start_row start_column _ _ _ Hrun Hkeys) as Hpalette.
    simpl in Hpalette. split; [done|].
    rewrite <- (length_fmap fst), Hpalette. unfold assignedKeys. lia.
  - intros key cell Hin.
    assert (forall cs b0 b1,
              forCells start_row start_column cs b0 = Normal b1 ->
              forall kv, kv ∈ cells b1 ->
                kv ∈ cells b0 \/ kv.1 ∈ keysFrom (uuidCalls (globals b0)) cs) as Hfrom.
    { clear. induction cs as [|[[i j] l] cs IH]; intros b0 b1 Hrun kv Hkv.
      - injection Hrun as <-. by left.
      - cbn [forCells keysFrom] in *. apply bind_returns in Hrun as (b2 & Hstep & Hrun).
        destruct (bool_decide_reflect (l = BLANK_CELL_LABEL)) as [->|Hlabel].
        + rewrite forLabel_blank in Hstep. injection Hstep as <-. by eapply IH.
        + destruct (forLabel_emits start_row start_column i j l b0 Hlabel)
            as (b2' & stored & Hstep' & Hcells & Huuid & _).
          rewrite Hstep in Hstep'. injection Hstep' as <-.
          destruct (IH _ _ Hrun _ Hkv) as [Hb2|Hlater].
          * rewrite Hcells in Hb2. apply assign_elem_of in Hb2 as [?| ->]; [by left|].
            right. apply list_elem_of_here.
          * right. rewrite Huuid in Hlater. by apply list_elem_of_further. }
    destruct (Hfrom _ _ _ Hrun _ Hin) as [Hnil|Hkey]; [|done].
    by apply not_elem_of_nil in Hnil.
Qed.

Lemma palette_has_one_cell_per_label_witness :
  exists r g',
    @processPaletteLabels Sample.engine Sample.uuid
      [["BLANK"; "cat"]; ["7"; "BLANK"; "dog"]] 2 1 (Sample.fresh MoreSamples.glosses)
      = Normal (r, g')
    /\ (palette_cells (paletteJson r)).*1 = ["cat-u"; "7-uu"; "dog-uuu"].
Proof.
  eexists _, _. split; [reflexivity|].
  refine (proj1 (proj1 (@palette_has_one_cell_per_label Sample.engine Sample.uuid
                          [["BLANK"; "cat"]; ["7"; "BLANK"; "dog"]] 2 1
                          (Sample.fresh MoreSamples.glosses) _ _ eq_refl) _)).
  apply (bool_decide_unpack _). vm_compute. exact I.
Defined.

(** X13.  Every cell of every returned palette has the type
    "ActionBmwCodeCell", spans one row and one column, has a [bciAvId] (a
    number, NaN maybe, or the not-found tokens: never undefined), and stands
    for a label of the layout that is not blank, at row [i] and column [j]:
    its [rowStart] is [start_row + i], its [columnStart] is
    [start_column + j], and its key begins with that label and a dash. *)
Theorem palette_cells_are_placed `{!Engine} `{!Uuid}
    (palette_labels : list (list string)) (start_row start_column : Z)
    (g : Globals) r g' key cell :
  processPaletteLabels palette_labels start_row start_column g = Normal (r, g') ->
  (key, cell) ∈ palette_cells (paletteJson r) ->
  cell_type cell = "ActionBmwCodeCell"
  /\ rowSpan (options cell) = 1
  /\ columnSpan (options cell) = 1
  /\ bciAvId (options cell) ≠ Undefined
  /\ exists (i j : nat) (row : list string) (l : string) (n : nat),
       palette_labels !! i = Some row
       /\ row !! j = Some l
       /\ l ≠ "BLANK"
       /\ key = l +:+ "-" +:+ uuidv4 n
       /\ rowStart (options cell) = start_row + Z.of_nat i
       /\ columnStart (options cell) = start_column + Z.of_nat j.
Proof.
  unfold processPaletteLabels. rewrite forRows_forCells. intros Hcall Hin.
  apply bind_returns in Hcall as (b' & Hrun & [= <- <-]). simpl in Hin.
  destruct (forCells_origin _ _ _ _ _ Hrun _ _ Hin)
    as [Hnil|(i & j & l & n & Hcell & Hlabel & -> & Htype & Hrow & ? & Hcolumn & ? & ?)].
  { by apply not_elem_of_nil in Hnil. }
  apply layoutCells_elem_of in Hcell as (k & row & -> & Hk & Hj).
  split; [done|]. split; [done|]. split; [done|]. split; [done|].
  by exists k, j, row, l, n.
Qed.

Lemma palette_cells_are_placed_witness :
  exists r g' cell,
    @processPaletteLabels Sample.engine Sample.uuid
      [["BLANK"; "cat"]; ["7"; "BLANK"; "dog"]] 2 1 (Sample.fresh MoreSamples.glosses)
      = Normal (r, g')
    /\ ("dog-uuu", cell) ∈ palette_cells (paletteJson r)
    /\ rowSpan (options cell) = 1
    /\ columnSpan (options cell) = 1.
Proof.
  eexists _, _, _. split; [reflexivity|]. split.
  - do 2 apply list_elem_of_further. apply list_elem_of_here.
  - destruct (@palette_cells_are_placed Sample.engine Sample.uuid
                [["BLANK"; "cat"]; ["7"; "BLANK"; "dog"]] 2 1
                (Sample.fresh MoreSamples.glosses) _ _ "dog-uuu" _ eq_refl
                (list_elem_of_further _ _ _
                   (list_elem_of_further _ _ _ (list_elem_of_here _ _))))
      as (_ & Hrows & Hcolumns & _).
    exact (conj Hrows Hcolumns).
Defined.

Lemma parseInt_BLANK : parseInt BLANK_CELL_LABEL = NaN.
Proof. reflexivity. Qed.

Lemma filter_first {A} (P : A -> Prop) `{!forall x, Decision (P x)}
    (before after : list A) (first : A) :
  Forall (fun x => ~ P x) before -> P first ->
  filter P (before ++ first :: after) = first :: filter P after.
Proof.
  intros Hbefore Hfirst. rewrite filter_app, filter_cons_True by done.
  replace (filter P before) with (@nil A); [done|].
  induction Hbefore as [|x before Hx _ IH]; [done|]. by rewrite filter_cons_False.
Qed.

(** The callback on a label that [findBciAvId] resolves. *)
Lemma forLabel_matched `{!Engine} `{!Uuid} start_row start_column (i j : nat)
    (l : string) (b : Build) (first : Match) (others : list Match) :
  l ≠ BLANK_CELL_LABEL ->
  parseInt l = NaN ->
  findBciAvId l (bliss_gloss (globals b)) = Normal (Matches (first :: others)) ->
  forLabel start_row start_column i j l b =
    Normal {| cells :=
                assign (cells b) (l +:+ "-" +:+ uuidv4 (uuidCalls (globals b)))
                  {| cell_type := type;
                     options := {| label := l;
                                   bciAvId := Number_ (match_bciAvId first);
                                   rowStart := start_row + Z.of_nat i; rowSpan := 1;
                                   columnStart := start_column + Z.of_nat j;
                                   columnSpan := 1 |} |};
              matchByLabel := matchByLabel b ++ [(l, first :: others)];
              globals := {| bliss_gloss := bliss_gloss (globals b);
                            errors := errors (globals b);
                            uuidCalls := S (uuidCalls (globals b)) |} |}.
Proof.
  intros Hlabel Hnan Hfound. unfold forLabel, tryBlock.
  by rewrite bool_decide_false, Hnan, Hfound by done.
Qed.

(** X14.  A label that is no number, is plain, and is no member of
    [Object.prototype] gets the id of the first entry of the gloss file, in
    file order, whose description is the label or contains it as a whole
    word: the cell keeps the label as its label and takes that entry's id,
    read by [parseInt], as its [bciAvId].  All the entries that match, not
    the first only, are recorded under the label at the end of the matches,
    and no error is recorded. *)
Theorem gloss_label_takes_first_match `{!Engine} `{!Uuid} start_row start_column
    (i j : nat) (l : string) (b : Build) (before after : list GlossEntry)
    (first : GlossEntry) :
  let qualifies gloss :=
    description gloss = l \/ occursAsWholeWord l (description gloss) in
  bliss_gloss (globals b) = Some (before ++ first :: after) ->
  l ≠ BLANK_CELL_LABEL ->
  parseInt l = NaN ->
  plain l ->
  in_specialEncodings l = false ->
  Forall (fun gloss => ~ qualifies gloss) before ->
  qualifies first ->
  exists b' later,
    forLabel start_row start_column i j l b = Normal b'
    /\ property (cells b') (l +:+ "-" +:+ uuidv4 (uuidCalls (globals b))) =
         Some {| cell_type := type;
                 options := {| label := l;
                               bciAvId := Number_ (parseIntId (id first));
                               rowStart := start_row + Z.of_nat i; rowSpan := 1;
                               columnStart := start_column + Z.of_nat j;
                               columnSpan := 1 |} |}
    /\ matchByLabel b' = matchByLabel b ++ [(l, matchOf first :: later)]
    /\ (forall m, m ∈ later <->
                  exists gloss, gloss ∈ after /\ qualifies gloss /\ m = matchOf gloss)
    /\ errors (globals b') = errors (globals b).
Proof.
  intros qualifies Hbliss Hlabel Hnan Hplain Hown Hbefore Hfirst.
  set (wordMatch := testNodes (NWordB :: (NChar <$> list_ascii_of_string l) ++ [NWordB])).
  assert (forall gloss,
            (l = description gloss \/ wordMatch (description gloss) = true)
            <-> qualifies gloss) as Hqualifies.
  { intros gloss. unfold qualifies, wordMatch. rewrite testNodes_whole_word.
    split; (intros [?|?]; [by left|by right]). }
  pose proof (findBciAvId_kept l wordMatch (before ++ first :: after) Hown
                (RegExp_plain l Hplain)) as Hfound.
  cbv zeta in Hfound. rewrite filter_first in Hfound.
  - rewrite fmap_cons in Hfound. rewrite <- Hbliss in Hfound.
    rewrite (forLabel_matched _ _ _ _ _ _ _ _ Hlabel Hnan Hfound).
    eexists _, _. split; [done|]. simpl. split; [apply property_assign|].
    split; [done|]. split; [|done].
    intros m. rewrite list_elem_of_fmap. split.
    + intros (gloss & -> & [Hin Hq]%list_elem_of_filter).
      exists gloss. by rewrite <- Hqualifies.
    + intros (gloss & Hin & Hq & ->). exists gloss. split; [done|].
      apply list_elem_of_filter. by rewrite Hqualifies.
  - eapply Forall_impl; [exact Hbefore|]. intros gloss Hno Hyes.
    by apply Hno, Hqualifies.
  - by apply Hqualifies.
Qed.

Lemma gloss_label_takes_first_match_witness :
  exists b',
    @forLabel Sample.engine Sample.uuid 2 1 0 1 "cat"
      {| cells := []; matchByLabel := [];
         globals := Sample.fresh MoreSamples.glosses |} = Normal b'
    /\ property (cells b') "cat-u" =
         Some {| cell_type := type;
                 options := {| label := "cat"; bciAvId := Number_ (Int 7);
                               rowStart := 2; rowSpan := 1;
                               columnStart := 2; columnSpan := 1 |} |}
    /\ errors (globals b') = [].
Proof.
  destruct (@gloss_label_takes_first_match Sample.engine Sample.uuid 2 1 0 1 "cat"
              {| cells := []; matchByLabel := [];
                 globals := Sample.fresh MoreSamples.glosses |}
              [Sample.gloss (IdString "12") "category"]
              [Sample.gloss (IdString "5") "cat"; Sample.gloss (IdString "5") "C++";
               Sample.gloss (IdString "9") "constructor"]
              (Sample.gloss (IdString "7") "the cat sat")
              eq_refl ltac:(discriminate) eq_refl
              ltac:(repeat constructor) eq_refl)
    as (b' & later & Hstep & Hcell & _ & _ & Herrors).
  - apply Forall_cons. split; [|apply Forall_nil_2].
    intros [?|Hword]; [discriminate|].
    by apply testNodes_whole_word in Hword.
  - right. by apply testNodes_whole_word.
  - exists b'. split; [exact Hstep|]. split; [exact Hcell | exact Herrors].
Defined.

Lemma find_first {A} (f : A -> bool) (before after : list A) (first : A) :
  Forall (fun x => f x = false) before -> f first = true ->
  List.find f (before ++ first :: after) = Some first.
Proof.
  intros Hbefore Hfirst. induction Hbefore as [|x before Hx _ IH]; simpl.
  - by rewrite Hfirst.
  - by rewrite Hx.
Qed.

(** X15.  A label that [parseInt] reads as an integer [n] gets [n] as its
    [bciAvId] and, as its label, the description of the first entry of the
    gloss file whose id is the label itself, as a string; nothing is added
    to the matches or to the errors.  (The label is not looked up by
    description: [findBciAvId] is not called.) *)
Theorem numeric_label_takes_description `{!Engine} `{!Uuid} start_row start_column
    (i j : nat) (l : string) (n : Z) (b : Build) (before after : list GlossEntry)
    (entry : GlossEntry) :
  bliss_gloss (globals b) = Some (before ++ entry :: after) ->
  parseInt l = Int n ->
  id entry = IdString l ->
  Forall (fun earlier => id earlier ≠ IdString l) before ->
  exists b',
    forLabel start_row start_column i j l b = Normal b'
    /\ property (cells b') (l +:+ "-" +:+ uuidv4 (uuidCalls (globals b))) =
         Some {| cell_type := type;
                 options := {| label := description entry;
                               bciAvId := Number_ (Int n);
                               rowStart := start_row + Z.of_nat i; rowSpan := 1;
                               columnStart := start_column + Z.of_nat j;
                               columnSpan := 1 |} |}
    /\ matchByLabel b' = matchByLabel b
    /\ errors (globals b') = errors (globals b).
Proof.
  intros Hbliss Hint Hid Hbefore.
  assert (l ≠ BLANK_CELL_LABEL) as Hlabel.
  { intros ->. by rewrite parseInt_BLANK in Hint. }
  assert (findByBciAvId l (Some (before ++ entry :: after)) = Normal entry) as Hfound.
  { unfold findByBciAvId. rewrite (find_first _ before after entry); [done| |].
    - eapply Forall_impl; [exact Hbefore|]. intros earlier Hne.
      unfold strictEqualsString. destruct (id earlier) as [|t] eqn:Hearlier; [done|].
      apply bool_decide_eq_false. congruence.
    - unfold strictEqualsString. rewrite Hid. by apply bool_decide_eq_true. }
  unfold forLabel, tryBlock.
  rewrite bool_decide_false, Hint, Hbliss, Hfound by done. simpl.
  eexists. split; [done|]. simpl. split; [apply property_assign|done].
Qed.

Lemma numeric_label_takes_description_witness :
  exists b',
    @forLabel Sample.engine Sample.uuid 2 1 0 0 "7"
      {| cells := []; matchByLabel := [];
         globals := Sample.fresh MoreSamples.glosses |} = Normal b'
    /\ property (cells b') "7-u" =
         Some {| cell_type := type;
                 options := {| label := "the cat sat"; bciAvId := Number_ (Int 7);
                               rowStart := 2; rowSpan := 1;
                               columnStart := 1; columnSpan := 1 |} |}.
Proof.
  destruct (@numeric_label_takes_description Sample.engine Sample.uuid 2 1 0 0 "7" 7
              {| cells := []; matchByLabel := [];
                 globals := Sample.fresh MoreSamples.glosses |}
              [Sample.gloss (IdString "12") "category"]
              [Sample.gloss (IdString "5") "cat"; Sample.gloss (IdString "5") "C++";
               Sample.gloss (IdString "9") "constructor"]
              (Sample.gloss (IdString "7") "the cat sat")
              eq_refl eq_refl eq_refl)
    as (b' & Hstep & Hcell & _).
  - apply Forall_cons. split; [discriminate|apply Forall_nil_2].
  - exists b'. split; [exact Hstep | exact Hcell].
Defined.







(** X18.  A label that names a member of [Object.prototype], such as
    ["constructor"] or ["toString"], counts as a special encoding: the gloss
    file is not consulted, whatever it holds, and since what is found there
    is no array of matches the cell fails with a TypeError.  The palette
    gets the not-found cell for it, with the TypeError's message among the
    errors. *)
Theorem inherited_name_is_not_found `{!Engine} `{!Uuid} start_row start_column
    (i j : nat) (l : string) (b : Build) :
  in_specialEncodings l = true ->
  findBciAvId l (bliss_gloss (globals b)) = Normal Inherited
  /\ exists b',
       forLabel start_row start_column i j l b = Normal b'
       /\ property (cells b') (l +:+ "-" +:+ uuidv4 (uuidCalls (globals b))) =
            Some (notFoundCell l (start_row + Z.of_nat i) (start_column + Z.of_nat j))
       /\ errors (globals b') =
            errors (globals b) ++ [faultMessage (ReadOfUndefined "bciAvId")]
       /\ matchByLabel b' = matchByLabel b.
Proof.
  intros Hinherited.
  assert (findBciAvId l (bliss_gloss (globals b)) = Normal Inherited) as Hfound.
  { unfold findBciAvId. by rewrite Hinherited. }
  split; [done|].
  assert (parseInt l = NaN /\ l ≠ BLANK_CELL_LABEL) as [Hnan Hlabel].
  { unfold in_specialEncodings in Hinherited. apply bool_decide_eq_true in Hinherited.
    unfold objectPrototypeKeys in Hinherited.
    repeat (apply elem_of_cons in Hinherited as [->|Hinherited]; [by split|]).
    by apply not_elem_of_nil in Hinherited. }
  assert (failure (bliss_gloss (globals b)) l =
            Some (TypeError (ReadOfUndefined "bciAvId"))) as Hfailure.
  { unfold failure, attempt, tryBlock.
    by rewrite bool_decide_false, Hnan, Hfound by done. }
  rewrite (forLabel_failed _ _ _ _ _ _ _ Hfailure). eexists. split; [done|].
  simpl. split; [apply property_assign|done].
Qed.

Lemma inherited_name_is_not_found_witness :
  exists b',
    @forLabel Sample.engine Sample.uuid 2 1 0 0 "constructor"
      {| cells := []; matchByLabel := [];
         globals := Sample.fresh MoreSamples.glosses |} = Normal b'
    /\ property (cells b') "constructor-u" = Some (notFoundCell "constructor" 2 1)
    /\ errors (globals b') =
         ["Cannot read properties of undefined (reading 'bciAvId')"].
Proof.
  destruct (@inherited_name_is_not_found Sample.engine Sample.uuid 2 1 0 0
              "constructor"
              {| cells := []; matchByLabel := [];
                 globals := Sample.fresh MoreSamples.glosses |} eq_refl)
    as (_ & b' & Hstep & Hcell & Herrors & _).
  exists b'. split; [exact Hstep|]. split; [exact Hcell | exact Herrors].
Defined.

(** X19.  For a plain label that is no member of [Object.prototype],
    [findBciAvId] throws the not-found error exactly when no entry of the
    gloss file has a description that is the label or contains it as a whole
    word; otherwise it returns the matches of exactly those entries (each
    with its id read by [parseInt] and its description), in the order of the
    gloss file. *)
Theorem plain_label_resolution `{!Engine} (l : string) (glosses : list GlossEntry) :
  plain l ->
  in_specialEncodings l = false ->
  let qualifies gloss :=
    description gloss = l \/ occursAsWholeWord l (description gloss) in
  ((forall gloss, gloss ∈ glosses -> ~ qualifies gloss) ->
   findBciAvId l (Some glosses) =
     Throw (Error ("BciAvId not found for label: " +:+ l)))
  /\ ((exists gloss, gloss ∈ glosses /\ qualifies gloss) ->
      exists found,
        findBciAvId l (Some glosses) = Normal (Matches found)
        /\ found `sublist_of` (matchOf <$> glosses)
        /\ (forall m, m ∈ found <->
                      exists gloss, gloss ∈ glosses /\ qualifies gloss /\ m = matchOf gloss)).
Proof.
  intros Hplain Hown qualifies.
  set (wordMatch := testNodes (NWordB :: (NChar <$> list_ascii_of_string l) ++ [NWordB])).
  assert (forall gloss,
            (l = description gloss \/ wordMatch (description gloss) = true)
            <-> qualifies gloss) as Hqualifies.
  { intros gloss. unfold qualifies, wordMatch. rewrite testNodes_whole_word.
    split; (intros [?|?]; [by left|by right]). }
  pose proof (findBciAvId_kept l wordMatch glosses Hown (RegExp_plain l Hplain)) as Hfound.
  cbv zeta in Hfound.
  set (kept := filter (fun gloss => l = description gloss
                                    \/ wordMatch (description gloss) = true) glosses)
    in Hfound.
  assert (forall gloss, gloss ∈ kept <-> gloss ∈ glosses /\ qualifies gloss) as Hkept.
  { intros gloss. unfold kept. rewrite list_elem_of_filter, Hqualifies. tauto. }
  split.
  - intros Hnone. destruct kept as [|gloss kept'] eqn:Hlist; [done|].
    destruct (proj1 (Hkept gloss) (list_elem_of_here _ _)) as [Hin Hq].
    by destruct (Hnone gloss Hin).
  - intros (gloss & Hin & Hq). exists (matchOf <$> kept). split; [|split].
    + rewrite Hfound. destruct kept as [|first kept'] eqn:Hlist; [|done].
      by destruct (not_elem_of_nil gloss); apply Hkept.
    + apply fmap_sublist. apply sublist_filter.
    + intros m. rewrite list_elem_of_fmap. split.
      * intros (g0 & -> & Hg0). apply Hkept in Hg0 as [? ?]. by exists g0.
      * intros (g0 & Hg0 & Hq0 & ->). exists g0. split; [done|]. by apply Hkept.
Qed.

Lemma plain_label_resolution_witness :
  @findBciAvId Sample.engine "dog" (Some MoreSamples.glosses) =
    Throw (Error "BciAvId not found for label: dog").
Proof.
  refine (proj1 (@plain_label_resolution Sample.engine "dog" MoreSamples.glosses
                   ltac:(repeat constructor) eq_refl) _).
  intros gloss Hin [Hequal|Hword].
  - repeat (apply elem_of_cons in Hin as [->|Hin]; [discriminate Hequal|]).
    by apply not_elem_of_nil in Hin.
  - apply testNodes_whole_word in Hword.
    repeat (apply elem_of_cons in Hin as [->|Hin]; [discriminate Hword|]).
    by apply not_elem_of_nil in Hin.
Defined.

End GeneratorExtras.

(** ** The gloss search form: what counts as nothing, what counts as a number *)

Module SearchExtras.
Import Js JsFacts ActionSearchGloss SearchFacts.

(** A text of which [trimStart] leaves nothing is a run of white space
    characters, and conversely. *)
Lemma trimStart_nil_iff (s : list ascii) :
  trimStart s = [] <->
  exists cps, Forall (fun cp => cp ∈ whiteSpaceCodePoints) cps
              /\ s = concat (utf8 <$> cps).
Proof.
  split.
  - remember (length s) as n eqn:Hn. revert s Hn.
    induction n as [n IH] using lt_wf_ind. intros s -> Hblank.
    rewrite trimStart_unfold in Hblank.
    destruct (leadingWhiteSpace s) as [|k] eqn:Hlead.
    { exists []. by rewrite Hblank. }
    pose proof (leadingWhiteSpace_length s) as Hlength. rewrite Hlead in Hlength.
    apply leadingWhiteSpace_take, isWhiteSpace_spec in Hlead as (cp & Hcp & Hbytes).
    destruct (IH (length (drop (S k) s)) ltac:(rewrite length_drop; lia)
                 (drop (S k) s) eq_refl Hblank) as (cps & Hcps & Hrest).
    exists (cp :: cps). split; [by constructor|].
    rewrite fmap_cons. simpl concat. rewrite <- Hbytes, <- Hrest.
    by rewrite take_drop.
  - intros (cps & Hcps & ->).
    induction Hcps as [|cp cps Hcp _ IH]; [done|].
    rewrite fmap_cons. simpl concat.
    rewrite trimStart_unfold, (leadingWhiteSpace_utf8 _ _ Hcp).
    assert (length (utf8 cp) ≠ 0%nat) as Hlength.
    { unfold utf8. by repeat case_match. }
    destruct (length (utf8 cp)) as [|k] eqn:Hk; [done|].
    rewrite <- Hk, drop_app_length. exact IH.
Qed.

Lemma string_of_list_ascii_nil_iff (l : list ascii) :
  string_of_list_ascii l = "" <-> l = [].
Proof. by destruct l. Qed.

Lemma trimEnd_nil_iff (m : list ascii) : trimEnd m = [] <-> trimStart m = [].
Proof.
  destruct m as [|c r]; [done|]. rewrite trimEnd_cons.
  by destruct (trimStart (c :: r)).
Qed.

(** Trimming leaves nothing exactly of the texts made of white space. *)
Lemma trim_empty_iff (s : string) :
  trim s = "" <->
  exists cps, Forall (fun cp => cp ∈ whiteSpaceCodePoints) cps
              /\ s = fromCodePoint cps.
Proof.
  unfold trim, fromCodePoint.
  rewrite string_of_list_ascii_nil_iff, trimEnd_nil_iff, trimStart_idempotent,
    trimStart_nil_iff.
  split; intros (cps & Hcps & Htext); exists cps; (split; [done|]).
  - by rewrite <- Htext, string_of_list_ascii_of_string.
  - by rewrite Htext, list_ascii_of_string_of_list_ascii.
Qed.

(** X21.  The search form takes a field for empty exactly when it holds
    nothing but white space, which is any run of the characters of
    [whiteSpaceCodePoints]: spaces, tabs and line breaks, and as well the
    no-break space, the ideographic space, the byte order mark and the other
    Unicode spaces.  Then, and only then, it renders the no-search-term
    result, with no match and an empty search term, and calls neither search
    function.  Any other field is rendered with its text stripped of the
    white space at both ends, or not rendered at all if the search throws. *)
Theorem blank_field_is_no_search `{!Numbers} `{!BciAvUtils} (field : string) :
  let blank :=
    exists cps, Forall (fun cp => cp ∈ whiteSpaceCodePoints) cps
                /\ field = fromCodePoint cps in
  (blank ->
   searchGloss field =
     Normal {| matches := []; noSearchTerm := true; searchTerm := "" |})
  /\ (forall rendered,
        searchGloss field = Normal rendered ->
        (noSearchTerm rendered = true <-> blank)
        /\ searchTerm rendered = trim field
        /\ (noSearchTerm rendered = true -> matches rendered = [])).
Proof.
  intros blank. subst blank. unfold searchGloss. split.
  - intros Hblank%trim_empty_iff.
    rewrite bool_decide_true by (by apply length_zero_iff_empty).
    by rewrite Hblank.
  - intros rendered. rewrite <- trim_empty_iff.
    destruct (bool_decide_reflect (String.length (trim field) = 0%nat)) as [Hempty|Hterm].
    + intros [= <-]. simpl. by rewrite <- length_zero_iff_empty.
    + intros Hdone. apply bind_returns in Hdone as (found & _ & [= <-]). simpl.
      rewrite <- length_zero_iff_empty. by split.
Qed.

Lemma blank_field_is_no_search_witness :
  @searchGloss Sample.numbers Sample.bciAvUtils (fromCodePoint [160; 9; 8232; 12288; 65279; 32]) =
    Normal (@Build_Rendered Sample.numbers Sample.bciAvUtils [] true "").
Proof.
  refine (proj1 (@blank_field_is_no_search Sample.numbers Sample.bciAvUtils
                   (fromCodePoint [160; 9; 8232; 12288; 65279; 32])) _).
  exists [160; 9; 8232; 12288; 65279; 32]. split; [|reflexivity].
  repeat constructor.
Defined.

Lemma takeDigits_all (l : list ascii) : forallb isDigit l = true -> takeDigits l = l.
Proof.
  induction l as [|c l IH]; [done|]. simpl.
  intros [-> Hl]%andb_true_iff. by rewrite IH.
Qed.

Lemma dropDigits_all (l : list ascii) : forallb isDigit l = true -> dropDigits l = [].
Proof.
  induction l as [|c l IH]; [done|]. simpl.
  intros [-> Hl]%andb_true_iff. by apply IH.
Qed.

Lemma dropSign_digit (c : ascii) (r : list ascii) :
  isDigit c = true -> dropSign (c :: r) = c :: r.
Proof.
  intros Hc. destruct c as [[] [] [] [] [] [] [] []]; try reflexivity;
    vm_compute in Hc; discriminate Hc.
Qed.

(** A run of decimal digits is a numeric literal. *)
Lemma digits_are_numeric (s : string) :
  oneOrMore isDigit (list_ascii_of_string s) = true -> isStrNumericLiteral s = true.
Proof.
  unfold isStrNumericLiteral, oneOrMore.
  destruct (list_ascii_of_string s) as [|c r]; [done|]. simpl nonEmpty.
  rewrite andb_true_l. intros Hdigits. apply orb_true_iff. right.
  rewrite dropSign_digit by (simpl in Hdigits; by apply andb_true_iff in Hdigits as [? _]).
  unfold isStrUnsignedDecimalLiteral. case_bool_decide; [done|].
  by rewrite takeDigits_all, dropDigits_all.
Qed.

(** X22.  A search term made of decimal digits only, white space around it
    apart, is never searched as a label: the form asks
    [findCompositionsUsingId] for the compositions that use the number it
    denotes, and renders what that returns, with [noSearchTerm] false. *)
Theorem digits_are_searched_as_an_id `{!Numbers} `{!BciAvUtils} (field : string) :
  oneOrMore isDigit (list_ascii_of_string (trim field)) = true ->
  searchGloss field =
    found ← findCompositionsUsingId (literalValue (trim field));
    Normal {| matches := found; noSearchTerm := false; searchTerm := trim field |}.
Proof.
  intros Hdigits.
  assert (trim field ≠ "") as Hterm.
  { intros Hempty. by rewrite Hempty in Hdigits. }
  unfold searchGloss.
  rewrite bool_decide_false by (by rewrite length_zero_iff_empty).
  by rewrite Number_trimmed, (digits_are_numeric _ Hdigits).
Qed.

Lemma digits_are_searched_as_an_id_witness :
  @searchGloss Sample.numbers Sample.bciAvUtils "  0042 " =
    Normal (@Build_Rendered Sample.numbers Sample.bciAvUtils ["id:0042"] false "0042").
Proof.
  exact (@digits_are_searched_as_an_id Sample.numbers Sample.bciAvUtils "  0042 " eq_refl).
Defined.

End SearchExtras.
